(** * python-altium, [library.py]: schematic-library part extraction

    A shallow embedding of [SchPart] and [SchLib] from [library.py]
    together with the properties of the part and library assemblers.

    Python values are represented as follows.
    - [bytes] objects are lists of [byte];
    - [str] objects are lists of Unicode code points ([N]);
    - [dict] objects are [gmap]s (none of the properties below depends on
      the insertion order of a dict);
    - a call that may raise returns a [result]: [Ok v] or [Raise e]. *)

From Stdlib Require Import ZArith NArith List Strings.String Strings.Ascii
  Strings.Byte DecimalNat.
From stdpp Require Import gmap strings list fin_maps.

Open Scope N_scope.

Abbreviation bytes := (list byte) (only parsing).
Abbreviation str := (list N) (only parsing).

#[global] Instance byte_eq_decision : EqDecision byte := byte_eq_dec.

(** Literals: [B "x"] is Python's [b'x'], [U "x"] is ['x']. *)
Definition B (s : string) : bytes := list_byte_of_string s.
Definition U (s : string) : str := Byte.to_N <$> list_byte_of_string s.

(** ** Exceptions *)

(** The exceptions that can cross [SchPart.__init__] and
    [SchLib.__init__].  [AttributeError], [UnicodeDecodeError] and
    [StopIteration] are raised by Python itself ([None.decode],
    [bytes.decode('ascii')], [next] on an exhausted generator); the
    others are the error kinds of the [altium] module. *)
Inductive exn : Set :=
  | AttributeError
  | UnicodeDecodeError
  | StopIteration
  | DecodeError
  | FormatError
  | NotFoundError
  | FramingError.

#[global] Instance exn_eq_decision : EqDecision exn.
Proof. solve_decision. Defined.

(** [isinstance(e, ValueError)], the test made by [except ValueError].
    [UnicodeDecodeError] is a subclass of [ValueError] in Python;
    [DecodeError] is taken to be one too (it is what [int()] raises on
    non-numeric input). *)
Definition is_ValueError (e : exn) : bool :=
  match e with
  | UnicodeDecodeError | DecodeError => true
  | _ => false
  end.

Inductive result (A : Type) : Type :=
  | Ok (a : A)
  | Raise (e : exn).
Arguments Ok {A} a.
Arguments Raise {A} e.

Definition bind {A C : Type} (m : result A) (k : A -> result C) : result C :=
  match m with
  | Ok a => k a
  | Raise e => Raise e
  end.

Notation "'let*' x ':=' m 'in' k" := (bind m (fun x => k))
  (at level 10, x name, m at level 100, k at level 200).

(** ** Python built-ins used by [library.py] *)

(** [b.decode('ascii')]: every byte must be below 0x80. *)
Definition decode_ascii (b : bytes) : result str :=
  if forallb (fun c => Byte.to_N c <? 128) b
  then Ok (Byte.to_N <$> b)
  else Raise UnicodeDecodeError.

(** [o.decode('ascii')] where [o] may be [None]. *)
Definition decode (o : option bytes) : result str :=
  match o with
  | None => Raise AttributeError
  | Some b => decode_ascii b
  end.

Definition is_cont (c : N) : bool := (128 <=? c) && (c <=? 191).

(** The range allowed for the second byte of a 3- or 4-byte sequence
    (it excludes overlong forms, surrogates and values above U+10FFFF). *)
Definition second_ok (lead c : N) : bool :=
  if lead =? 224 then (160 <=? c) && (c <=? 191)
  else if lead =? 237 then (128 <=? c) && (c <=? 159)
  else if lead =? 240 then (144 <=? c) && (c <=? 191)
  else if lead =? 244 then (128 <=? c) && (c <=? 143)
  else is_cont c.

Definition REPLACEMENT : N := 65533.

(** [b.decode('utf8', errors='replace')] on a list of byte values: every
    maximal ill-formed prefix of a sequence becomes one U+FFFD and
    decoding resumes after it. *)
Fixpoint utf8_replace (bs : list N) : str :=
  match bs with
  | [] => []
  | b0 :: r0 =>
    if b0 <? 128 then b0 :: utf8_replace r0
    else if (194 <=? b0) && (b0 <=? 223) then
      match r0 with
      | [] => [REPLACEMENT]
      | b1 :: r1 =>
        if is_cont b1
        then ((b0 - 192) * 64 + (b1 - 128)) :: utf8_replace r1
        else REPLACEMENT :: utf8_replace r0
      end
    else if (224 <=? b0) && (b0 <=? 239) then
      match r0 with
      | [] => [REPLACEMENT]
      | b1 :: r1 =>
        if second_ok b0 b1 then
          match r1 with
          | [] => [REPLACEMENT]
          | b2 :: r2 =>
            if is_cont b2
            then ((b0 - 224) * 4096 + (b1 - 128) * 64 + (b2 - 128))
                   :: utf8_replace r2
            else REPLACEMENT :: utf8_replace r1
          end
        else REPLACEMENT :: utf8_replace r0
      end
    else if (240 <=? b0) && (b0 <=? 244) then
      match r0 with
      | [] => [REPLACEMENT]
      | b1 :: r1 =>
        if second_ok b0 b1 then
          match r1 with
          | [] => [REPLACEMENT]
          | b2 :: r2 =>
            if is_cont b2 then
              match r2 with
              | [] => [REPLACEMENT]
              | b3 :: r3 =>
                if is_cont b3
                then ((b0 - 240) * 262144 + (b1 - 128) * 4096
                      + (b2 - 128) * 64 + (b3 - 128)) :: utf8_replace r3
                else REPLACEMENT :: utf8_replace r2
              end
            else REPLACEMENT :: utf8_replace r1
          end
        else REPLACEMENT :: utf8_replace r0
      end
    else REPLACEMENT :: utf8_replace r0
  end.

(** [o.decode('utf8', errors='replace')] where [o] may be [None]. *)
Definition decode_utf8_replace (o : option bytes) : result str :=
  match o with
  | None => Raise AttributeError
  | Some b => Ok (utf8_replace (Byte.to_N <$> b))
  end.

Definition NEWLINE : N := 10.
Definition SPACE : N := 32.

(** [s.replace('\n', ' ')]. *)
Definition replace_newline (s : str) : str :=
  (fun c => if c =? NEWLINE then SPACE else c) <$> s.

(** ["{}".format(cnt)]: the decimal digits of [cnt], no leading zero. *)
Fixpoint str_of_uint (d : Decimal.uint) : str :=
  match d with
  | Decimal.Nil => []
  | Decimal.D0 d => 48 :: str_of_uint d
  | Decimal.D1 d => 49 :: str_of_uint d
  | Decimal.D2 d => 50 :: str_of_uint d
  | Decimal.D3 d => 51 :: str_of_uint d
  | Decimal.D4 d => 52 :: str_of_uint d
  | Decimal.D5 d => 53 :: str_of_uint d
  | Decimal.D6 d => 54 :: str_of_uint d
  | Decimal.D7 d => 55 :: str_of_uint d
  | Decimal.D8 d => 56 :: str_of_uint d
  | Decimal.D9 d => 57 :: str_of_uint d
  end.

Definition format_nat (cnt : nat) : str := str_of_uint (Nat.to_uint cnt).

(** ** The [altium] module *)

(** Modelled from the spec: the property map built by
    [altium.parse_properties] ([altium.py] is not among the sources).
    It maps a key to the raw bytes of its value; keys are stored in
    upper case and a looked-up name is normalised to upper case. *)
Abbreviation Properties := (gmap (list N) (list byte)) (only parsing).

(** Upper-casing of the ASCII letters (every name [library.py] looks up
    is an ASCII literal followed by decimal digits). *)
Definition upper_cp (c : N) : N :=
  if (97 <=? c) && (c <=? 122) then c - 32 else c.

Definition upper (s : str) : str := upper_cp <$> s.

(** Modelled from the spec: [Properties.get(name, default=None)], "get
    raw bytes (optional, with fallback default)".  An absent key yields
    the default, which is [None] unless the caller gives one. *)
Definition get (r : Properties) (name : str) (default : option bytes)
  : option bytes :=
  match r !! upper name with
  | Some v => Some v
  | None => default
  end.

Definition digit_of (c : byte) : option Z :=
  let n := Byte.to_N c in
  if (48 <=? n) && (n <=? 57) then Some (Z.of_N (n - 48)) else None.

Fixpoint parse_digits (acc : Z) (b : bytes) : option Z :=
  match b with
  | [] => Some acc
  | c :: b' =>
    match digit_of c with
    | Some d => parse_digits (10 * acc + d)%Z b'
    | None => None
    end
  end.

(** A decimal integer: an optional sign and at least one digit. *)
Definition parse_int (b : bytes) : result Z :=
  let parse_unsigned ds :=
    match ds with
    | [] => None
    | _ => parse_digits 0%Z ds
    end in
  let parsed :=
    match b with
    | c :: ds =>
      if Byte.to_N c =? 45 then Z.opp <$> parse_unsigned ds
      else if Byte.to_N c =? 43 then parse_unsigned ds
      else parse_unsigned b
    | [] => None
    end in
  match parsed with
  | Some z => Ok z
  | None => Raise DecodeError
  end.

(** Modelled from the spec: [Properties.get_int(name)], "parses the
    stored bytes as a decimal integer; fails with a decode error if
    non-numeric".  An absent key has no bytes to parse and fails alike. *)
Definition get_int (r : Properties) (name : str) : result Z :=
  match get r name None with
  | Some v => parse_int v
  | None => Raise DecodeError
  end.

(** Modelled from the spec: [Properties.check(key, expected,
    alternate=None)], which "fails with a format error unless the key is
    present and its value equals [expected] or (if provided)
    [alternate]".  A present value is a [bytes] object, so it never
    equals a [None] argument. *)
Definition check (r : Properties) (key : str)
    (expected alternate : option bytes) : result unit :=
  match r !! upper key with
  | Some v =>
    if bool_decide (Some v = expected) || bool_decide (Some v = alternate)
    then Ok tt
    else Raise FormatError
  | None => Raise FormatError
  end.

(** Modelled from the spec: what the generator
    [(altium.parse_properties(stream, record) for record in
    altium.iter_records(stream))] does each time it is advanced.  It
    yields a property map, yields [None] (the case [library.py] tests
    with [record is None]), or raises: the record iterator "fails with a
    framing error", the property decoder "fails with a decode error".  A
    generator that has raised is finished, so nothing after an [Err] is
    ever produced. *)
Inductive item : Type :=
  | Rec (record : option Properties)
  | Err (e : exn).

Abbreviation OleStream := (list item) (only parsing).

(** Modelled from the spec: the compound container, "open-by-path stream
    access" where an "absent path" is a "not-found error". *)
Record OleFileIO : Type := { streams : gmap (list (list N)) (list item) }.

Definition openstream (file : OleFileIO) (path : list str)
  : result OleStream :=
  match streams file !! path with
  | Some s => Ok s
  | None => Raise NotFoundError
  end.

(** ** [class SchPart] *)

Module SchPart.

Record t : Type := mk {
  id : str;
  desc : str;
  designator : str;
  properties : gmap (list N) (list N);
  footprints : gmap (list N) (list N)
}.

Definition set_designator (self : t) (v : str) : t :=
  mk (id self) (desc self) v (properties self) (footprints self).

Definition set_property (self : t) (name text : str) : t :=
  mk (id self) (desc self) (designator self)
     (<[name := text]> (properties self)) (footprints self).

Definition set_footprint (self : t) (name text : str) : t :=
  mk (id self) (desc self) (designator self)
     (properties self) (<[name := text]> (footprints self)).

(** "Decode header": [header] is what [next(records)] returned. *)
Definition header_id (header : option Properties) : result str :=
  match header with
  | None => Raise AttributeError
  | Some header =>
    match get header (U "DESIGNITEMID") None with
    | Some v => decode_ascii v
    | None => decode (get header (U "LIBREFERENCE") None)
    end
  end.

(** The body of the [for record in records] loop for a record that is
    not [None]. *)
Definition dispatch (self : t) (record : Properties) : result t :=
  let* k := get_int record (U "RECORD") in
  if (k =? 41)%Z then
    let* name := decode (get record (U "NAME") None) in
    let* text := decode (get record (U "TEXT") (Some [])) in
    Ok (set_property self name text)
  else
    let* k := get_int record (U "RECORD") in
    if (k =? 34)%Z then
      let* text := decode (get record (U "TEXT") None) in
      Ok (set_designator self text)
    else
      let* k := get_int record (U "RECORD") in
      if (k =? 45)%Z then
        let* name := decode (get record (U "MODELNAME") None) in
        let* text := decode (get record (U "DESCRIPTION") (Some [])) in
        Ok (set_footprint self name text)
      else Ok self.

(** The [for record in records] loop. *)
Fixpoint body (self : t) (records : OleStream) : result t :=
  match records with
  | [] => Ok self
  | Err e :: _ => Raise e
  | Rec None :: records => body self records
  | Rec (Some record) :: records =>
    let* self := dispatch self record in body self records
  end.

(** [SchPart.__init__(self, stream, description)]. *)
Definition init (stream : OleStream) (description : str) : result t :=
  match stream with
  | [] => Raise StopIteration
  | Err e :: _ => Raise e
  | Rec header :: records =>
    let* id := header_id header in
    body (mk id description [] ∅ ∅) records
  end.

(** [SchPart.params(self)]: [dict.update] lets the entries of
    [self.properties] replace those of the literal. *)
Definition params (self : t) : gmap (list N) (list N) :=
  properties self ∪
    <[U "id" := id self]>
      (<[U "designator" := designator self]>
         (<[U "description" := desc self]> ∅)).

End SchPart.

(** ** [class SchLib] *)

Module SchLib.

Definition SIGNATURE : bytes :=
  B "Protel for Windows - Schematic Library Editor Binary File Version 5.0".

(** ["LIBREF{}".format(cnt)] and ["COMPDESCR{}".format(cnt)]. *)
Definition LIBREF (cnt : nat) : str := U "LIBREF" ++ format_nat cnt.
Definition COMPDESCR (cnt : nat) : str := U "COMPDESCR" ++ format_nat cnt.

(** [header.get("COMPDESCR{}".format(cnt), b'')
      .decode('utf8', errors='replace').replace('\n', ' ')]. *)
Definition description (header : Properties) (cnt : nat) : result str :=
  let* s := decode_utf8_replace (get header (COMPDESCR cnt) (Some [])) in
  Ok (replace_newline s).

(** What one round of the [while True] loop does: leave the loop at
    [break], go on to [cnt + 1] with the part table it has reached, or
    let an exception leave [__init__]. *)
Inductive control : Type :=
  | Break
  | Continue (parts : gmap (list N) SchPart.t)
  | Propagate (e : exn).

(** The body of the [while True] loop.  [openstream] and the decoding
    of its argument come before the [try]; only [SchPart(...)] and the
    assignment to [self.parts] are inside it. *)
Definition iteration (file : OleFileIO) (header : Properties)
    (parts : gmap (list N) SchPart.t) (cnt : nat) : control :=
  let libref := get header (LIBREF cnt) None in
  match description header cnt with
  | Raise e => Propagate e
  | Ok desc =>
    match libref with
    | None | Some [] => Break
    | Some libref =>
      match
        let* name := decode_ascii libref in
        let* stream := openstream file [name; U "Data"] in
        Ok (name, stream)
      with
      | Raise e => Propagate e
      | Ok (name, stream) =>
        match SchPart.init stream desc with
        | Ok part => Continue (<[name := part]> parts)
        | Raise e => if is_ValueError e then Continue parts else Propagate e
        end
      end
    end
  end.

(** The [while True] loop of [SchLib.__init__]; [None] when the fuel
    runs out. *)
Fixpoint discover (fuel : nat) (file : OleFileIO) (header : Properties)
    (parts : gmap (list N) SchPart.t) (cnt : nat)
  : option (result (gmap (list N) SchPart.t)) :=
  match fuel with
  | O => None
  | S fuel =>
    match iteration file header parts cnt with
    | Break => Some (Ok parts)
    | Continue parts => discover fuel file header parts (S cnt)
    | Propagate e => Some (Raise e)
    end
  end.

(** "Parse header": the part of [SchLib.__init__] before the loop. *)
Definition read_header (file : OleFileIO) : result Properties :=
  let* stream := openstream file [U "FileHeader"] in
  match stream with
  | [] => Raise StopIteration
  | Err e :: _ => Raise e
  | Rec None :: _ => Raise AttributeError
  | Rec (Some header) :: _ =>
    let* _ := check header (U "HEADER") (Some SIGNATURE) None in
    let* _ := check header (U "MINORVERSION") None (Some (B "2")) in
    Ok header
  end.

(** [SchLib.__init__(self, file)] applied to an opened container; the
    result is the value of [self.parts].  A header of [n] keys lacks
    one of [LIBREF0] .. [LIBREF{n}], so [n + 1] rounds are enough. *)
Definition init (file : OleFileIO)
  : option (result (gmap (list N) SchPart.t)) :=
  match read_header file with
  | Raise e => Some (Raise e)
  | Ok header => discover (S (size header)) file header ∅ 0
  end.

End SchLib.

(** * Vocabulary of the statements *)

(** A [bytes] object with a byte of value 0x80 or above. *)
Definition non_ascii (b : list byte) : Prop :=
  Exists (fun c => 128 <= Byte.to_N c) b.

(** A Unicode scalar value: a code point that a [str] can hold after a
    decoding, below 0x110000 and not a surrogate. *)
Definition scalar (c : N) : Prop :=
  c < 1114112 /\ ~ (55296 <= c /\ c < 57344).

(** A record built from key/value literals, and the streams and
    containers used as concrete inputs below. *)
Definition record_of (l : list (string * string)) : gmap (list N) (list byte) :=
  list_to_map (map (fun kv : string * string => (U kv.1, B kv.2)) l).

Definition container_of (l : list (list string * list item)) : OleFileIO :=
  {| streams :=
       list_to_map
         (map (fun ps : list string * list item => (map U ps.1, ps.2)) l) |}.

(** [record] is a kind-41 record whose [NAME] decodes to [name]; it is
    a property record for [name] with text [text] when moreover its
    [TEXT] (empty when absent) decodes to [text]. *)
Definition names_property (record : gmap (list N) (list byte))
    (name : list N) : Prop :=
  get_int record (U "RECORD") = Ok 41%Z /\
  decode (get record (U "NAME") None) = Ok name.

Definition is_property (record : gmap (list N) (list byte))
    (name text : list N) : Prop :=
  names_property record name /\
  decode_ascii (default [] (get record (U "TEXT") None)) = Ok text.

(** The same for kind-45 records, [MODELNAME] and [DESCRIPTION]. *)
Definition names_footprint (record : gmap (list N) (list byte))
    (name : list N) : Prop :=
  get_int record (U "RECORD") = Ok 45%Z /\
  decode (get record (U "MODELNAME") None) = Ok name.

Definition is_footprint (record : gmap (list N) (list byte))
    (name text : list N) : Prop :=
  names_footprint record name /\
  decode_ascii (default [] (get record (U "DESCRIPTION") None)) = Ok text.

(** No record of [records] satisfies [P]. *)
Definition no_record (P : gmap (list N) (list byte) -> Prop)
    (records : list item) : Prop :=
  forall record, Rec (Some record) ∈ records -> ~ P record.

(** The loop of [SchLib.__init__] arrives at index [cnt] with the part
    table [parts]. *)
Inductive reaches (file : OleFileIO) (header : gmap (list N) (list byte))
  : gmap (list N) SchPart.t -> nat -> Prop :=
  | reaches_start : reaches file header ∅ 0
  | reaches_next parts parts' cnt :
      reaches file header parts cnt ->
      SchLib.iteration file header parts cnt = SchLib.Continue parts' ->
      reaches file header parts' (S cnt).

(** The description [SchLib.__init__] passes to the part of index [cnt]. *)
Definition description_text (header : gmap (list N) (list byte))
    (cnt : nat) : list N :=
  replace_newline
    (utf8_replace
       (Byte.to_N <$> default [] (get header (SchLib.COMPDESCR cnt) None))).

(** [LIBREF{cnt}] is present, not empty, and decodes to [name]. *)
Definition reference (header : gmap (list N) (list byte)) (cnt : nat)
    (name : list N) : Prop :=
  exists libref,
    get header (SchLib.LIBREF cnt) None = Some libref /\
    libref <> [] /\ decode_ascii libref = Ok name.

(** [LIBREF{cnt}] is absent or empty: where the loop breaks. *)
Definition gap (header : gmap (list N) (list byte)) (cnt : nat) : Prop :=
  get header (SchLib.LIBREF cnt) None = None \/
  get header (SchLib.LIBREF cnt) None = Some [].

(** The number of contiguous indices, from 0, whose [LIBREF{n}] is
    present and not empty: the first index at which it is absent or
    empty, searched below the number of keys of the header plus one. *)
Fixpoint first_gap (header : gmap (list N) (list byte)) (fuel cnt : nat)
  : nat :=
  match fuel with
  | O => cnt
  | S fuel =>
    match get header (SchLib.LIBREF cnt) None with
    | None | Some [] => cnt
    | Some _ => first_gap header fuel (S cnt)
    end
  end.

Definition contiguous_references (header : gmap (list N) (list byte)) : nat :=
  first_gap header (S (size header)) 0.

(** The part of index [cnt] is stored under [name] and decodes to
    [part]. *)
Definition part_at (file : OleFileIO) (header : gmap (list N) (list byte))
    (cnt : nat) (name : list N) (part : SchPart.t) : Prop :=
  reference header cnt name /\
  exists stream,
    openstream file [name; U "Data"] = Ok stream /\
    SchPart.init stream (description_text header cnt) = Ok part.

(** A well-formed library: its header passes the two checks, every
    reference before the first gap names a stream that decodes to a
    part, and no two of these references are the same. *)
Definition well_formed (file : OleFileIO)
    (header : gmap (list N) (list byte)) : Prop :=
  SchLib.read_header file = Ok header /\
  (forall cnt, (cnt < contiguous_references header)%nat ->
     exists name part, part_at file header cnt name part) /\
  (forall i j name,
     (i < contiguous_references header)%nat ->
     (j < contiguous_references header)%nat ->
     reference header i name -> reference header j name -> i = j).

(** A part header with neither [DESIGNITEMID] nor [LIBREFERENCE]. *)
Definition lacks_identity (header : gmap (list N) (list byte)) : Prop :=
  get header (U "DESIGNITEMID") None = None /\
  get header (U "LIBREFERENCE") None = None.

(** The identity field that [SchPart.__init__] decodes has a byte of
    0x80 or above. *)
Definition identity_non_ascii (header : gmap (list N) (list byte)) : Prop :=
  (exists v, get header (U "DESIGNITEMID") None = Some v /\ non_ascii v)
  \/ (get header (U "DESIGNITEMID") None = None /\
      exists v, get header (U "LIBREFERENCE") None = Some v /\ non_ascii v).

(** A field of [record] that the dispatch decodes has a byte of 0x80 or
    above (a second field is decoded only once the first one was). *)
Inductive decodes_non_ascii (record : gmap (list N) (list byte)) : Prop :=
  | property_name v :
      get_int record (U "RECORD") = Ok 41%Z ->
      get record (U "NAME") None = Some v -> non_ascii v ->
      decodes_non_ascii record
  | property_text v name t :
      get_int record (U "RECORD") = Ok 41%Z ->
      get record (U "NAME") None = Some v -> decode_ascii v = Ok name ->
      get record (U "TEXT") None = Some t -> non_ascii t ->
      decodes_non_ascii record
  | designator_text t :
      get_int record (U "RECORD") = Ok 34%Z ->
      get record (U "TEXT") None = Some t -> non_ascii t ->
      decodes_non_ascii record
  | footprint_name v :
      get_int record (U "RECORD") = Ok 45%Z ->
      get record (U "MODELNAME") None = Some v -> non_ascii v ->
      decodes_non_ascii record
  | footprint_description v name t :
      get_int record (U "RECORD") = Ok 45%Z ->
      get record (U "MODELNAME") None = Some v -> decode_ascii v = Ok name ->
      get record (U "DESCRIPTION") None = Some t -> non_ascii t ->
      decodes_non_ascii record.

(** [SchPart.__init__] on [stream] reaches an ASCII decoding of a field
    with a byte of 0x80 or above: the identity field, or a field of a
    record that the loop arrives at. *)
Inductive reads_non_ascii (description : list N) : list item -> Prop :=
  | reads_identity header records :
      identity_non_ascii header ->
      reads_non_ascii description (Rec (Some header) :: records)
  | reads_field header id pre self record post :
      SchPart.header_id (Some header) = Ok id ->
      SchPart.body (SchPart.mk id description [] ∅ ∅) pre = Ok self ->
      decodes_non_ascii record ->
      reads_non_ascii description
        (Rec (Some header) :: pre ++ Rec (Some record) :: post).

(** ** Concrete streams and libraries *)

Definition resistor : list item :=
  [ Rec (Some (record_of [("LIBREFERENCE", "RES")]));
    Rec (Some (record_of [("RECORD", "41"); ("NAME", "Comment"); ("TEXT", "10k")]));
    Rec (Some (record_of [("RECORD", "34"); ("TEXT", "R?")]));
    Rec (Some (record_of [("RECORD", "45"); ("MODELNAME", "0603")]));
    Rec (Some (record_of [("RECORD", "41"); ("NAME", "Comment"); ("TEXT", "20k")])) ].

Definition capacitor : list item :=
  [ Rec (Some (record_of [("DESIGNITEMID", "C-0805"); ("LIBREFERENCE", "CAP")]));
    Rec (Some (record_of [("RECORD", "34"); ("TEXT", "C?")]));
    Rec (Some (record_of [("RECORD", "41"); ("NAME", "id"); ("TEXT", "override")])) ].

(** A part whose header has no identity field. *)
Definition anonymous : list item :=
  [ Rec (Some (record_of [("RECORD", "1")]));
    Rec (Some (record_of [("RECORD", "34"); ("TEXT", "U?")])) ].

(** A part whose second record makes the property decoder raise. *)
Definition undecodable : list item :=
  [ Rec (Some (record_of [("LIBREFERENCE", "RES")]));
    Err DecodeError;
    Rec (Some (record_of [("RECORD", "34"); ("TEXT", "R?")])) ].

(** A part whose designator text is the single byte 0xE9. *)
Definition latin1 : list item :=
  [ Rec (Some (record_of [("LIBREFERENCE", "RES")]));
    Rec (Some (<[U "TEXT" := [xe9]]> (record_of [("RECORD", "34")]))) ].

(** A part whose kind-41 record has the single byte 0xE9 as its [TEXT]
    and no [NAME]. *)
Definition nameless_latin1 : list item :=
  [ Rec (Some (record_of [("LIBREFERENCE", "RES")]));
    Rec (Some (<[U "TEXT" := [xe9]]> (record_of [("RECORD", "41")]))) ].

(** A part whose kind-41 record has the single byte 0xE9 as its [NAME],
    after a kind-34 record without [TEXT]. *)
Definition latin1_after_designator : list item :=
  [ Rec (Some (record_of [("LIBREFERENCE", "RES")]));
    Rec (Some (record_of [("RECORD", "34")]));
    Rec (Some (<[U "NAME" := [xe9]]> (record_of [("RECORD", "41")]))) ].

Definition library_header (fields : list (string * string))
  : gmap (list N) (list byte) :=
  record_of
    (("HEADER",
      "Protel for Windows - Schematic Library Editor Binary File Version 5.0")
       :: ("MINORVERSION", "2") :: fields).

Definition two_references : gmap (list N) (list byte) :=
  library_header
    [("LIBREF0", "RES"); ("COMPDESCR0", "Resistor
10k"); ("LIBREF1", "CAP")].

(** A library of two parts, and the same library with the first part
    replaced by [first]. *)
Definition library_with (first : list item) : OleFileIO :=
  container_of
    [ (["FileHeader"], [Rec (Some two_references)]);
      (["RES"; "Data"], first);
      (["CAP"; "Data"], capacitor) ].

(** The same library without a stream for its first reference. *)
Definition library_without_stream : OleFileIO :=
  container_of
    [ (["FileHeader"], [Rec (Some two_references)]);
      (["CAP"; "Data"], capacitor) ].

(** A library whose header has the minor version 3. *)
Definition library_version_3 : OleFileIO :=
  container_of
    [ (["FileHeader"],
       [Rec (Some (<[U "MINORVERSION" := B "3"]> two_references))]);
      (["RES"; "Data"], resistor);
      (["CAP"; "Data"], capacitor) ].

(** ** Vocabulary of the further properties *)

(** [record] is a kind-34 record; it is a designator record with text
    [text] when its [TEXT] decodes to [text]. *)
Definition names_designator (record : gmap (list N) (list byte)) : Prop :=
  get_int record (U "RECORD") = Ok 34%Z.

Definition is_designator (record : gmap (list N) (list byte))
    (text : list N) : Prop :=
  names_designator record /\
  decode (get record (U "TEXT") None) = Ok text.

(** The identity field of a part header: [DESIGNITEMID] when the header
    has it, [LIBREFERENCE] otherwise. *)
Definition identity_field (header : gmap (list N) (list byte))
  : option (list byte) :=
  match get header (U "DESIGNITEMID") None with
  | Some v => Some v
  | None => get header (U "LIBREFERENCE") None
  end.

(** A part with a designator record only, whose text is the word
    [Comment]. *)
Definition anonymous_free : list item :=
  [ Rec (Some (record_of [("LIBREFERENCE", "CAP")]));
    Rec (Some (record_of [("RECORD", "34"); ("TEXT", "Comment")])) ].

(** A kind-41 record without [NAME], or a kind-45 record without
    [MODELNAME]. *)
Definition lacks_name (record : gmap (list N) (list byte)) : Prop :=
  (get_int record (U "RECORD") = Ok 41%Z /\
   get record (U "NAME") None = None)
  \/ (get_int record (U "RECORD") = Ok 45%Z /\
      get record (U "MODELNAME") None = None).

(** The library of two parts with the byte 0xE9 as its first reference. *)
Definition library_latin1_reference : OleFileIO :=
  container_of
    [ (["FileHeader"],
       [Rec (Some (<[U "LIBREF0" := [xe9]]> two_references))]);
      (["RES"; "Data"], resistor);
      (["CAP"; "Data"], capacitor) ].

(** A library whose header has [LIBREF0] and [LIBREF2] but no
    [LIBREF1]. *)
Definition header_with_gap : gmap (list N) (list byte) :=
  library_header [("LIBREF0", "RES"); ("LIBREF2", "CAP")].

Definition library_with_gap : OleFileIO :=
  container_of
    [ (["FileHeader"], [Rec (Some header_with_gap)]);
      (["RES"; "Data"], resistor);
      (["CAP"; "Data"], capacitor) ].

(** A library whose two references are the same. *)
Definition header_duplicate : gmap (list N) (list byte) :=
  library_header
    [("LIBREF0", "RES"); ("COMPDESCR0", "first");
     ("LIBREF1", "RES"); ("COMPDESCR1", "second")].

Definition library_duplicate : OleFileIO :=
  container_of
    [ (["FileHeader"], [Rec (Some header_duplicate)]);
      (["RES"; "Data"], resistor) ].

(** The UTF-8 encoding of a code point and of a text, what
    [str.encode('utf8')] gives for Unicode scalar values. *)
Definition utf8_encode (c : N) : list N :=
  if c <? 128 then [c]
  else if c <? 2048 then [192 + c / 64; 128 + c mod 64]
  else if c <? 65536 then
    [224 + c / 4096; 128 + (c / 64) mod 64; 128 + c mod 64]
  else
    [240 + c / 262144; 128 + (c / 4096) mod 64; 128 + (c / 64) mod 64;
     128 + c mod 64].

Definition utf8_encode_text (s : list N) : list N :=
  concat (map utf8_encode s).

(** What it is to decode bytes as UTF-8 with the invalid sequences
    replaced, said with the encoding alone.  No encoding of a scalar
    value starts the bytes [bs]: *)
Definition no_start (bs : list N) : Prop :=
  forall c rest, scalar c -> bs <> utf8_encode c ++ rest.

(** The bytes [p] start the encoding of some scalar value: *)
Definition begins (p : list N) : Prop :=
  exists c more, scalar c /\ utf8_encode c = p ++ more.

(** [decoding bs text]: the bytes are cut, from the left, into encodings
    of scalar values, each read as that value, and invalid sequences,
    each read as one U+FFFD.  An invalid sequence stands where no
    encoding starts, neither at its first byte nor at a later one of its
    bytes; it is the longest run of bytes there that starts an encoding
    (the next byte, if there is one, does not continue it), or the one
    byte there when that byte starts no encoding. *)
Inductive decoding : list N -> list N -> Prop :=
  | decoding_end : decoding [] []
  | decoding_scalar c rest text :
      scalar c -> decoding rest text ->
      decoding (utf8_encode c ++ rest) (c :: text)
  | decoding_replaced skipped rest text :
      skipped <> [] ->
      (forall i, (i < length skipped)%nat ->
         no_start (drop i (skipped ++ rest))) ->
      begins skipped \/ length skipped = 1%nat ->
      (forall b rest', rest = b :: rest' -> ~ begins (skipped ++ [b])) ->
      decoding rest text ->
      decoding (skipped ++ rest) (REPLACEMENT :: text).

(** A library header whose first description is the UTF-8 encoding of
    the text [10 k], an omega (U+03A9), a newline and [1%]. *)
Definition header_omega : gmap (list N) (list byte) :=
  <[U "COMPDESCR0" := B "10 k" ++ [xce; xa9; x0a] ++ B "1%"]>
    two_references.

(** A library whose first description is not UTF-8: [caf], the Latin-1
    byte 0xE9, a newline, [10], the first two bytes of the encoding of a
    euro sign (U+20AC) and [k]. *)
Definition header_damaged : gmap (list N) (list byte) :=
  <[U "COMPDESCR0" := B "caf" ++ [xe9; x0a] ++ B "10" ++ [xe2; x82] ++ B "k"]>
    two_references.

Definition library_damaged : OleFileIO :=
  container_of
    [ (["FileHeader"], [Rec (Some header_damaged)]);
      (["RES"; "Data"], resistor);
      (["CAP"; "Data"], capacitor) ].

(** * The package, the export and the command line *)

(** ** Exceptions and results outside [SchLib] *)

(** What [LibPkg], the export and the command line can raise: a
    [KeyError] of a configuration lookup, an [OSError] (with its
    message), an [InterpolationError] of [configparser] (any of its
    subclasses), a [UnicodeEncodeError] of a write to a text file, or an
    exception that left [SchLib.__init__] or the [csv] module. *)
Inductive failure : Type :=
  | KeyError (key : list N)
  | OSError (message : list N)
  | InterpolationError
  | UnicodeEncodeError
  | Uncaught (e : exn).

Inductive outcome (A : Type) : Type :=
  | Return (a : A)
  | Throw (e : failure).
Arguments Return {A} a.
Arguments Throw {A} e.

(** ** The runtime *)

(** A section of a parsed configuration, [config[x]]: its options
    (keyed in lower case, as [ConfigParser] stores them), each with what
    the lookup [section[key]] gives.  The lookup interpolates the stored
    value ([ConfigParser] has [BasicInterpolation] by default): it gives
    the interpolated value, or raises the exception of the interpolation
    (a stored [100%] raises [InterpolationSyntaxError]). *)
Abbreviation SectionProxy := (gmap (list N) (outcome (list N))) (only parsing).

(** The functions of the Python runtime that [library.py] calls on
    paths, and the ways in which it reads and writes the file system:
    [os.path.dirname], [os.path.basename], [os.path.join],
    [os.path.splitext], [str.lower]; [ConfigParser.read], as the list of
    the sections in file order; [altium.OleFileIO(path)];
    [open(file, 'w', newline='')], which may raise; and the characters
    that the encoding of the file so opened (the one of the locale)
    encodes: a write of a text with another character raises
    [UnicodeEncodeError]. *)
Module Runtime.

Record t : Type := mk {
  dirname : list N -> list N;
  basename : list N -> list N;
  join : list N -> list N -> list N;
  splitext : list N -> list N * list N;
  lower : list N -> list N;
  read_config : list N -> outcome (list (list N * SectionProxy));
  OleFileIO : list N -> outcome OleFileIO;
  open_w : list N -> outcome unit;
  encodes : N -> bool
}.

End Runtime.

(** [posixpath]: the implementation of [os.path] on POSIX systems. *)
Definition SLASH : N := 47.
Definition DOT : N := 46.

Definition is_slash (c : N) : bool := c =? SLASH.
Definition is_dot (c : N) : bool := c =? DOT.

(** [p[p.rfind(sep) + 1:]] when [p] has a separator. *)
Fixpoint after_last (sep : N -> bool) (p : list N) : option (list N) :=
  match p with
  | [] => None
  | c :: p' =>
    match after_last sep p' with
    | Some t => Some t
    | None => if sep c then Some p' else None
    end
  end.

Definition posix_basename (p : list N) : list N :=
  match after_last is_slash p with
  | Some t => t
  | None => p
  end.

Fixpoint rstrip (sep : N -> bool) (p : list N) : list N :=
  match p with
  | [] => []
  | c :: p' =>
    match rstrip sep p' with
    | [] => if sep c then [] else [c]
    | t => c :: t
    end
  end.

Definition posix_dirname (p : list N) : list N :=
  let head := take (length p - length (posix_basename p)) p in
  if forallb is_slash head then head else rstrip is_slash head.

Definition ends_with_slash (a : list N) : bool :=
  match last a with
  | Some d => is_slash d
  | None => false
  end.

(** [posixpath.join(a, b)]. *)
Definition posix_join (a b : list N) : list N :=
  match b with
  | c :: _ =>
    if is_slash c then b
    else match a with
         | [] => b
         | _ => if ends_with_slash a then a ++ b else a ++ SLASH :: b
         end
  | [] =>
    match a with
    | [] => []
    | _ => if ends_with_slash a then a else a ++ [SLASH]
    end
  end.

(** [posixpath.splitext(p)]: the extension starts at the last dot of the
    base name, unless only dots come before it. *)
Definition posix_splitext (p : list N) : list N * list N :=
  let name := posix_basename p in
  match after_last is_dot name with
  | None => (p, [])
  | Some t =>
    let stem := take (length name - length t - 1) name in
    if forallb is_dot stem then (p, [])
    else (take (length p - length t - 1) p, DOT :: t)
  end.

(** [str.lower] on the ASCII letters. *)
Definition lower_cp (c : N) : N :=
  if (65 <=? c) && (c <=? 90) then c + 32 else c.

Definition ascii_lower (s : list N) : list N := lower_cp <$> s.

(** The characters that UTF-8 encodes (every code point but the
    surrogates), and those that ASCII encodes. *)
Definition utf8_encodes (c : N) : bool :=
  (c <? 1114112) && negb ((55296 <=? c) && (c <? 57344)).

Definition ascii_encodes (c : N) : bool := c <? 128.

(** A POSIX runtime over a given file system, where every file can be
    opened for writing. *)
Definition posix
    (read_config : list N -> outcome (list (list N * SectionProxy)))
    (open : list N -> outcome OleFileIO) (encodes : N -> bool) : Runtime.t :=
  Runtime.mk posix_dirname posix_basename posix_join posix_splitext
    ascii_lower read_config open (fun _ => Return tt) encodes.

(** [s.startswith(prefix)]. *)
Fixpoint startswith (s prefix : list N) : bool :=
  match prefix, s with
  | [], _ => true
  | c :: prefix, d :: s => (c =? d) && startswith s prefix
  | _ :: _, [] => false
  end.

(** [config[x]]. *)
Fixpoint section (config : list (list N * SectionProxy))
    (x : list N) : outcome SectionProxy :=
  match config with
  | [] => Throw (KeyError x)
  | (name, options) :: config =>
    if bool_decide (name = x) then Return options else section config x
  end.

(** [section[key]]: a [KeyError] when the section has no such option,
    else the interpolated value or the exception of the
    interpolation. *)
Definition option_of (options : SectionProxy) (key : list N)
  : outcome (list N) :=
  match options !! key with
  | Some lookup => lookup
  | None => Throw (KeyError key)
  end.

(** [SchLib(path)]: the container is opened, then
    [SchLib.__init__] runs on it. *)
Definition SchLib_of (os : Runtime.t) (path : list N)
  : option (outcome (gmap (list N) SchPart.t)) :=
  match Runtime.OleFileIO os path with
  | Throw e => Some (Throw e)
  | Return file =>
    match SchLib.init file with
    | None => None
    | Some (Ok parts) => Some (Return parts)
    | Some (Raise e) => Some (Throw (Uncaught e))
    end
  end.

(** ** [class LibPkg] *)

Module LibPkg.

Record t : Type := mk {
  dir : list N;
  name : list N;
  design : SectionProxy;
  documents : list SectionProxy;
  schlibs : gmap (list N) (gmap (list N) SchPart.t)
}.

(** [[config[x] for x in config.sections() if x.startswith('Document')]]. *)
Definition documents_of (config : list (list N * SectionProxy))
  : list SectionProxy :=
  omap (fun x => match section config x with
                 | Return options => Some options
                 | Throw _ => None
                 end)
       (filter (fun x => startswith x (U "Document") = true) config.*1).

(** The test [os.path.splitext(path)[-1].lower() == '.schlib']. *)
Definition is_schlib (os : Runtime.t) (path : list N) : bool :=
  bool_decide (Runtime.lower os (Runtime.splitext os path).2 = U ".schlib").

(** The [for doc in self.documents] loop; [stdout] collects the lines
    that [print(path)] writes.  [None] only if a library ran out of
    fuel. *)
Fixpoint load (os : Runtime.t) (dir : list N)
    (documents : list SectionProxy)
    (schlibs : gmap (list N) (gmap (list N) SchPart.t))
    (stdout : list (list N))
  : list (list N) * option (outcome (gmap (list N) (gmap (list N) SchPart.t))) :=
  match documents with
  | [] => (stdout, Some (Return schlibs))
  | doc :: documents =>
    match option_of doc (U "documentpath") with
    | Throw e => (stdout, Some (Throw e))
    | Return documentpath =>
      let path := Runtime.join os dir documentpath in
      if is_schlib os path then
        let stdout := stdout ++ [path] in
        match SchLib_of os path with
        | None => (stdout, None)
        | Some (Throw e) => (stdout, Some (Throw e))
        | Some (Return parts) =>
          load os dir documents
            (<[Runtime.basename os documentpath := parts]> schlibs) stdout
        end
      else load os dir documents schlibs stdout
    end
  end.

(** [LibPkg.__init__(self, file)], from a standard output that holds
    the lines [stdout]. *)
Definition init (os : Runtime.t) (file : list N) (stdout : list (list N))
  : list (list N) * option (outcome t) :=
  let dir := Runtime.dirname os file in
  let name := Runtime.basename os file in
  match Runtime.read_config os file with
  | Throw e => (stdout, Some (Throw e))
  | Return config =>
    match section config (U "Design") with
    | Throw e => (stdout, Some (Throw e))
    | Return design =>
      match option_of design (U "version") with
      | Throw e => (stdout, Some (Throw e))
      | Return version =>
        if bool_decide (version <> U "1.0")
        then (stdout, Some (Throw (OSError (U "Invalid LibPkg version"))))
        else
          let documents := documents_of config in
          match load os dir documents ∅ stdout with
          | (stdout, None) => (stdout, None)
          | (stdout, Some (Throw e)) => (stdout, Some (Throw e))
          | (stdout, Some (Return schlibs)) =>
            (stdout, Some (Return (mk dir name design documents schlibs)))
          end
      end
    end
  end.

(** [LibPkg.list_documents(self)]. *)
Definition list_documents (self : t) : list SectionProxy :=
  documents self.

End LibPkg.

(** ** The CSV export *)

(** A row handed to [csv.DictWriter.writerows]: a dict, or a string
    (iterating over a dict gives its keys). *)
Inductive rowdict : Type :=
  | RowDict (d : gmap (list N) (list N))
  | RowStr (s : list N).

(** [DictWriter._dict_to_list(rowdict)] for a writer made with
    [extrasaction='ignore'] and the default [restval='']: the cells
    [rowdict.get(key, '')], one for each field name.  A string has no
    [get]: the first cell asked for raises [AttributeError]. *)
Definition dict_to_list (fieldnames : list (list N)) (row : rowdict)
  : outcome (list (list N)) :=
  match row with
  | RowDict d => Return ((fun key => default [] (d !! key)) <$> fieldnames)
  | RowStr _ =>
    match fieldnames with
    | [] => Return []
    | _ :: _ => Throw (Uncaught AttributeError)
    end
  end.

(** A row of cells can be written to the file when the encoding of the
    file encodes every character of every cell (the delimiters, the
    quotes and the line ends that the writer adds are ASCII). *)
Definition encodable (os : Runtime.t) (cells : list (list N)) : bool :=
  forallb (forallb (Runtime.encodes os)) cells.

(** [csv.writer.writerow(cells)] on the file: the row is formatted as
    one line and written, which raises [UnicodeEncodeError], with none
    of the line written, when the line cannot be encoded.  [written]
    holds the rows that the file has already.  The write of a line that
    can be encoded is taken to succeed: an error of the operating system
    on a file that was opened is not modelled. *)
Definition writerow (os : Runtime.t) (cells : list (list N))
    (written : list (list (list N)))
  : list (list (list N)) * outcome unit :=
  if encodable os cells then (written ++ [cells], Return tt)
  else (written, Throw UnicodeEncodeError).

(** [writer.writerows(rows)]: the rows go to the file one after the
    other, each as the list of its cells, until one raises. *)
Fixpoint writerows (os : Runtime.t) (fieldnames : list (list N))
    (rows : list rowdict) (written : list (list (list N)))
  : list (list (list N)) * outcome unit :=
  match rows with
  | [] => (written, Return tt)
  | row :: rows =>
    match dict_to_list fieldnames row with
    | Throw e => (written, Throw e)
    | Return cells =>
      match writerow os cells written with
      | (written, Throw e) => (written, Throw e)
      | (written, Return _) => writerows os fieldnames rows written
      end
    end
  end.

(** [writer.writeheader()]: the field names as a row. *)
Definition writeheader (os : Runtime.t) (fieldnames : list (list N))
    (written : list (list (list N)))
  : list (list (list N)) * outcome unit :=
  writerow os fieldnames written.

(** [SchPart.parts_to_csv(self, file, fieldnames)]: the rows written to
    [file] (none when it could not be opened) and the outcome.
    [writerows] is given [self.params()] itself, a dict, whose iteration
    gives its keys (in an order that does not matter here). *)
Definition SchPart_parts_to_csv (os : Runtime.t) (self : SchPart.t)
    (file : list N) (fieldnames : list (list N))
  : list (list (list N)) * outcome unit :=
  match Runtime.open_w os file with
  | Throw e => ([], Throw e)
  | Return _ =>
    match writeheader os fieldnames [] with
    | (written, Throw e) => (written, Throw e)
    | (written, Return _) =>
      writerows os fieldnames
        (RowStr <$> (map_to_list (SchPart.params self)).*1) written
    end
  end.

(** [[part.params() for key, part in schlib.get_parts().items()]]. *)
Definition rows_of (schlib : gmap (list N) SchPart.t) : list rowdict :=
  (fun kp => RowDict (SchPart.params kp.2)) <$> map_to_list schlib.

(** The [for schlib in self.schlibs.values()] loop. *)
Fixpoint write_libraries (os : Runtime.t) (fieldnames : list (list N))
    (libraries : list (gmap (list N) SchPart.t))
    (written : list (list (list N)))
  : list (list (list N)) * outcome unit :=
  match libraries with
  | [] => (written, Return tt)
  | schlib :: libraries =>
    match writerows os fieldnames (rows_of schlib) written with
    | (written, Throw e) => (written, Throw e)
    | (written, Return _) => write_libraries os fieldnames libraries written
    end
  end.

(** [LibPkg.parts_to_csv(self, file, fieldnames)]: the rows written to
    [file] (none when it could not be opened) and the outcome.  The
    libraries and the parts of a library come in the order of
    [map_to_list], not in the insertion order of the Python dicts: the
    order of the data rows is not modelled. *)
Definition LibPkg_parts_to_csv (os : Runtime.t) (self : LibPkg.t)
    (file : list N) (fieldnames : list (list N))
  : list (list (list N)) * outcome unit :=
  match Runtime.open_w os file with
  | Throw e => ([], Throw e)
  | Return _ =>
    match writeheader os fieldnames [] with
    | (written, Throw e) => (written, Throw e)
    | (written, Return _) =>
      write_libraries os fieldnames (map_to_list (LibPkg.schlibs self)).*2
        written
    end
  end.

(** ** The command line *)

(** The script run as [library.py file [fields ...] [--output
    output]], from the parsed arguments: the lines printed, and, for a
    run that ends without an exception, the CSV file written (its path
    and rows) if there is one. *)
Definition main (os : Runtime.t) (file : list N) (fields : list (list N))
    (output : option (list N)) (stdout : list (list N))
  : list (list N)
    * option (outcome (option (list N * list (list (list N))))) :=
  let fieldnames :=
    [U "id"; U "designator"; U "description"; U "Comment"] ++ fields in
  let output :=
    match output with
    | None => Runtime.basename os file ++ U ".csv"
    | Some output => output
    end in
  let ext := Runtime.lower os (Runtime.splitext os file).2 in
  if bool_decide (ext = U ".libpkg") then
    match LibPkg.init os file stdout with
    | (stdout, None) => (stdout, None)
    | (stdout, Some (Throw e)) => (stdout, Some (Throw e))
    | (stdout, Some (Return libpkg)) =>
      match LibPkg_parts_to_csv os libpkg output fieldnames with
      | (rows, Throw e) => (stdout, Some (Throw e))
      | (rows, Return _) => (stdout, Some (Return (Some (output, rows))))
      end
    end
  else if bool_decide (ext = U ".schlib") then
    match SchLib_of os file with
    | None => (stdout, None)
    | Some (Throw e) => (stdout, Some (Throw e))
    | Some (Return sch) => (stdout, Some (Return None))
    end
  else
    (stdout,
     Some (Throw (OSError (U "Unknown file format '" ++ ext ++ U "'")))).

(** The cell of the column [key] in the row of [part]. *)
Definition cell (part : SchPart.t) (key : list N) : list N :=
  match SchPart.properties part !! key with
  | Some v => v
  | None =>
    if decide (key = U "id") then SchPart.id part
    else if decide (key = U "designator") then SchPart.designator part
    else if decide (key = U "description") then SchPart.desc part
    else []
  end.

(** ** Vocabulary of the package properties *)

(** The path that the loop of [LibPkg.__init__] prints and opens for the
    document [doc], when the lookup of its [documentpath] gives a path
    whose extension is [.schlib] in any case. *)
Definition opened (os : Runtime.t) (dir : list N)
    (doc : SectionProxy) : option (list N) :=
  match doc !! U "documentpath" with
  | Some (Return documentpath) =>
    if LibPkg.is_schlib os (Runtime.join os dir documentpath)
    then Some (Runtime.join os dir documentpath)
    else None
  | _ => None
  end.

(** The key under which the library of [doc] is stored, when [doc] is
    opened. *)
Definition stored_as (os : Runtime.t) (dir : list N)
    (doc : SectionProxy) : option (list N) :=
  match doc !! U "documentpath" with
  | Some (Return documentpath) =>
    if LibPkg.is_schlib os (Runtime.join os dir documentpath)
    then Some (Runtime.basename os documentpath)
    else None
  | _ => None
  end.

(** A manifest and a file system for it: a package [lib/pkg.LibPkg] of
    version [version] with a library, a text document, a section that
    is no document, and a last document [third]; the file system has
    the libraries [lib/parts.SchLib] and [lib/old/parts.SchLib], and its
    text files hold the characters that [encodes] tells. *)
Definition manifest (version third : string)
  : list (list N * SectionProxy) :=
  [ (U "Design", {[ U "version" := Return (U version) ]});
    (U "Document1", {[ U "documentpath" := Return (U "parts.SchLib") ]});
    (U "Document2", {[ U "documentpath" := Return (U "notes/readme.txt") ]});
    (U "Generic", {[ U "documentpath" := Return (U "other.SchLib") ]});
    (U "Document3", {[ U "documentpath" := Return (U third) ]}) ].

Definition machine_with (encodes : N -> bool) (version third : string)
  : Runtime.t :=
  posix
    (fun file =>
       if bool_decide (file = U "lib/pkg.LibPkg")
       then Return (manifest version third) else Return [])
    (fun path =>
       if bool_decide (path = U "lib/parts.SchLib")
       then Return (library_with resistor)
       else if bool_decide (path = U "lib/old/parts.SchLib")
       then Return library_duplicate
       else Throw (OSError (U "not found")))
    encodes.

(** The same with UTF-8 text files. *)
Definition machine (version third : string) : Runtime.t :=
  machine_with utf8_encodes version third.

(** The rows of [rows] before the first one that cannot be written. *)
Fixpoint encodable_prefix (os : Runtime.t) (rows : list (list (list N)))
  : list (list (list N)) :=
  match rows with
  | [] => []
  | row :: rows =>
    if encodable os row then row :: encodable_prefix os rows else []
  end.

(** How the writes of [rows], one after the other, end. *)
Definition written_all (os : Runtime.t) (rows : list (list (list N)))
  : outcome unit :=
  if forallb (encodable os) rows then Return tt
  else Throw UnicodeEncodeError.

(** The rows of the parts of a package for the columns [fieldnames],
    library after library (in the order of [map_to_list]). *)
Definition export_data (self : LibPkg.t) (fieldnames : list (list N))
  : list (list (list N)) :=
  schlib ← (map_to_list (LibPkg.schlibs self)).*2;
  (fun kp : list N * SchPart.t => cell kp.2 <$> fieldnames)
    <$> map_to_list schlib.

(** A part whose description is not ASCII: an omega (U+03A9). *)
Definition resistor_omega : SchPart.t :=
  SchPart.mk (U "RES") [937] (U "R?") ∅ ∅.

(** A package with one library, of one part. *)
Definition package_of (part : SchPart.t) : LibPkg.t :=
  LibPkg.mk (U "lib") (U "pkg.LibPkg") ∅ []
    {[ U "parts.SchLib" := {[ SchPart.id part := part ]} ]}.

(** * Properties *)

(** ** Keys and formatting *)

Lemma upper_str_of_uint d : upper (str_of_uint d) = str_of_uint d.
Proof.
  unfold upper. induction d; simpl; [reflexivity | f_equal; assumption ..].
Qed.

Lemma str_of_uint_inj d d' : str_of_uint d = str_of_uint d' -> d = d'.
Proof.
  revert d'. induction d; intros [] Heq; simpl in Heq;
    try discriminate; try reflexivity;
    injection Heq as Heq; f_equal; auto.
Qed.

Lemma format_nat_inj n m : format_nat n = format_nat m -> n = m.
Proof.
  intros Heq. apply Unsigned.to_uint_inj, str_of_uint_inj, Heq.
Qed.

Lemma upper_LIBREF cnt : upper (SchLib.LIBREF cnt) = SchLib.LIBREF cnt.
Proof.
  unfold SchLib.LIBREF, upper, format_nat. rewrite fmap_app.
  f_equal. apply upper_str_of_uint.
Qed.

Lemma LIBREF_inj n m : SchLib.LIBREF n = SchLib.LIBREF m -> n = m.
Proof.
  unfold SchLib.LIBREF. intros Heq.
  apply app_inv_head in Heq. apply format_nat_inj, Heq.
Qed.

Lemma get_LIBREF (header : gmap (list N) (list byte)) cnt :
  get header (SchLib.LIBREF cnt) None = header !! SchLib.LIBREF cnt.
Proof.
  unfold get. rewrite upper_LIBREF. destruct (header !! _); reflexivity.
Qed.

Lemma get_Some_default (r : gmap (list N) (list byte)) name v d :
  get r name None = Some v -> get r name d = Some v.
Proof. unfold get. destruct (r !! upper name); [auto | discriminate]. Qed.

(** ** ASCII decoding *)

Lemma decode_ascii_non_ascii b :
  non_ascii b -> decode_ascii b = Raise UnicodeDecodeError.
Proof.
  intros Hb. unfold decode_ascii.
  destruct (forallb _ b) eqn:Hall; [| reflexivity].
  rewrite forallb_forall in Hall.
  apply Exists_exists in Hb as (c & Hin & Hc).
  apply list_elem_of_In, Hall, N.ltb_lt in Hin. lia.
Qed.

(** ** [SchPart.params] *)

Lemma params_lookup_property (self : SchPart.t) (k v : list N) :
  SchPart.properties self !! k = Some v -> SchPart.params self !! k = Some v.
Proof.
  intros Hk. unfold SchPart.params. apply lookup_union_Some_l, Hk.
Qed.

Lemma params_lookup_fixed (self : SchPart.t) (k : list N) :
  SchPart.properties self !! k = None ->
  SchPart.params self !! k =
    if decide (k = U "id") then Some (SchPart.id self)
    else if decide (k = U "designator") then Some (SchPart.designator self)
    else if decide (k = U "description") then Some (SchPart.desc self)
    else None.
Proof.
  intros Hk. unfold SchPart.params. rewrite lookup_union_r by exact Hk.
  repeat case_decide; subst; simplify_map_eq; reflexivity.
Qed.

(** ** Dispatch on the record kind *)

Lemma get_default_get (r : gmap (list N) (list byte)) name d :
  get r name (Some d) = Some (default d (get r name None)).
Proof. unfold get. destruct (r !! upper name); reflexivity. Qed.

Lemma dispatch_property (self : SchPart.t) (record : gmap (list N) (list byte)) :
  get_int record (U "RECORD") = Ok 41%Z ->
  SchPart.dispatch self record =
    let* name := decode (get record (U "NAME") None) in
    let* text := decode (get record (U "TEXT") (Some [])) in
    Ok (SchPart.set_property self name text).
Proof. intros Hk. unfold SchPart.dispatch. rewrite Hk. reflexivity. Qed.

Lemma dispatch_designator (self : SchPart.t) (record : gmap (list N) (list byte)) :
  get_int record (U "RECORD") = Ok 34%Z ->
  SchPart.dispatch self record =
    let* text := decode (get record (U "TEXT") None) in
    Ok (SchPart.set_designator self text).
Proof. intros Hk. unfold SchPart.dispatch. rewrite Hk. reflexivity. Qed.

Lemma dispatch_footprint (self : SchPart.t) (record : gmap (list N) (list byte)) :
  get_int record (U "RECORD") = Ok 45%Z ->
  SchPart.dispatch self record =
    let* name := decode (get record (U "MODELNAME") None) in
    let* text := decode (get record (U "DESCRIPTION") (Some [])) in
    Ok (SchPart.set_footprint self name text).
Proof. intros Hk. unfold SchPart.dispatch. rewrite Hk. reflexivity. Qed.

Lemma dispatch_other (self : SchPart.t) (record : gmap (list N) (list byte)) (k : Z) :
  get_int record (U "RECORD") = Ok k ->
  k <> 41%Z -> k <> 34%Z -> k <> 45%Z ->
  SchPart.dispatch self record = Ok self.
Proof.
  intros Hk H41 H34 H45. unfold SchPart.dispatch. rewrite Hk. simpl.
  apply Z.eqb_neq in H41, H34, H45. rewrite H41, H34, H45. reflexivity.
Qed.

Lemma dispatch_inv (self self' : SchPart.t)
    (record : gmap (list N) (list byte)) :
  SchPart.dispatch self record = Ok self' ->
  (exists name text, is_property record name text /\
     self' = SchPart.set_property self name text)
  \/ (exists text, get_int record (U "RECORD") = Ok 34%Z /\
        decode (get record (U "TEXT") None) = Ok text /\
        self' = SchPart.set_designator self text)
  \/ (exists name text, is_footprint record name text /\
        self' = SchPart.set_footprint self name text)
  \/ ((exists k, get_int record (U "RECORD") = Ok k /\
         k <> 41%Z /\ k <> 34%Z /\ k <> 45%Z) /\ self' = self).
Proof.
  unfold SchPart.dispatch, is_property, names_property, is_footprint,
    names_footprint.
  destruct (get_int record (U "RECORD")) as [k|e] eqn:Hk; [| discriminate].
  simpl. destruct (Z.eqb_spec k 41) as [->|H41].
  - rewrite get_default_get. simpl.
    destruct (decode (get record (U "NAME") None)) as [name|]; [| discriminate].
    simpl.
    destruct (decode_ascii _) as [text|] eqn:Ht; [| discriminate].
    intros [= <-]. left. exists name, text. auto.
  - destruct (Z.eqb_spec k 34) as [->|H34].
    + destruct (decode (get record (U "TEXT") None)) as [text|] eqn:Ht;
        [| discriminate].
      intros [= <-]. right; left. exists text. auto.
    + destruct (Z.eqb_spec k 45) as [->|H45].
      * rewrite get_default_get. simpl.
        destruct (decode (get record (U "MODELNAME") None)) as [name|];
          [| discriminate].
        simpl.
        destruct (decode_ascii _) as [text|] eqn:Ht; [| discriminate].
        intros [= <-]. right; right; left. exists name, text. auto.
      * intros [= <-]. right; right; right. split; [| reflexivity].
        exists k. auto.
Qed.

Lemma dispatch_is_property (self : SchPart.t)
    (record : gmap (list N) (list byte)) (name text : list N) :
  is_property record name text ->
  SchPart.dispatch self record = Ok (SchPart.set_property self name text).
Proof.
  intros [[Hk Hname] Htext]. rewrite dispatch_property by exact Hk.
  rewrite Hname, get_default_get. simpl. rewrite Htext. reflexivity.
Qed.

Lemma dispatch_is_footprint (self : SchPart.t)
    (record : gmap (list N) (list byte)) (name text : list N) :
  is_footprint record name text ->
  SchPart.dispatch self record = Ok (SchPart.set_footprint self name text).
Proof.
  intros [[Hk Hname] Htext]. rewrite dispatch_footprint by exact Hk.
  rewrite Hname, get_default_get. simpl. rewrite Htext. reflexivity.
Qed.

(** ** The record loop *)

Lemma body_app (self : SchPart.t) (l1 l2 : list item) :
  SchPart.body self (l1 ++ l2) =
    let* self' := SchPart.body self l1 in SchPart.body self' l2.
Proof.
  revert self. induction l1 as [|[[record|]|e] l1 IH]; intros self; simpl.
  - reflexivity.
  - destruct (SchPart.dispatch self record); simpl; [apply IH | reflexivity].
  - apply IH.
  - reflexivity.
Qed.

Lemma dispatch_id_desc (self self' : SchPart.t)
    (record : gmap (list N) (list byte)) :
  SchPart.dispatch self record = Ok self' ->
  SchPart.id self' = SchPart.id self /\ SchPart.desc self' = SchPart.desc self.
Proof.
  intros H. apply dispatch_inv in H
    as [(?&?&_&->)|[(?&_&_&->)|[(?&?&_&->)|[_ ->]]]]; auto.
Qed.

Lemma body_id_desc (records : list item) (self self' : SchPart.t) :
  SchPart.body self records = Ok self' ->
  SchPart.id self' = SchPart.id self /\ SchPart.desc self' = SchPart.desc self.
Proof.
  revert self. induction records as [|[[record|]|e] l IH]; intros self; simpl.
  - intros [= <-]. auto.
  - destruct (SchPart.dispatch self record) as [s|] eqn:Hd; [| discriminate].
    simpl. intros H. apply IH in H as [-> ->].
    apply dispatch_id_desc in Hd. exact Hd.
  - apply IH.
  - discriminate.
Qed.

Lemma body_keeps_property (name : list N) (records : list item)
    (self self' : SchPart.t) :
  SchPart.body self records = Ok self' ->
  no_record (fun r => names_property r name) records ->
  SchPart.properties self' !! name = SchPart.properties self !! name.
Proof.
  revert self. induction records as [|[[record|]|e] l IH]; intros self; simpl.
  - intros [= <-] _. reflexivity.
  - destruct (SchPart.dispatch self record) as [s|] eqn:Hd; [| discriminate].
    simpl. intros H Hno. rewrite (IH s H).
    + assert (Hrec : ~ names_property record name)
        by (apply Hno; left).
      apply dispatch_inv in Hd
        as [(n&t&[Hn _]&->)|[(?&_&_&->)|[(?&?&_&->)|[_ ->]]]];
        try reflexivity.
      simpl. apply lookup_insert_ne. intros ->. apply Hrec, Hn.
    + intros r Hr. apply Hno. right. exact Hr.
  - intros H Hno. apply IH; [exact H |].
    intros r Hr. apply Hno. right. exact Hr.
  - discriminate.
Qed.

Lemma body_keeps_footprint (name : list N) (records : list item)
    (self self' : SchPart.t) :
  SchPart.body self records = Ok self' ->
  no_record (fun r => names_footprint r name) records ->
  SchPart.footprints self' !! name = SchPart.footprints self !! name.
Proof.
  revert self. induction records as [|[[record|]|e] l IH]; intros self; simpl.
  - intros [= <-] _. reflexivity.
  - destruct (SchPart.dispatch self record) as [s|] eqn:Hd; [| discriminate].
    simpl. intros H Hno. rewrite (IH s H).
    + assert (Hrec : ~ names_footprint record name)
        by (apply Hno; left).
      apply dispatch_inv in Hd
        as [(?&?&_&->)|[(?&_&_&->)|[(n&t&[Hn _]&->)|[_ ->]]]];
        try reflexivity.
      simpl. apply lookup_insert_ne. intros ->. apply Hrec, Hn.
    + intros r Hr. apply Hno. right. exact Hr.
  - intros H Hno. apply IH; [exact H |].
    intros r Hr. apply Hno. right. exact Hr.
  - discriminate.
Qed.

Lemma body_last_property (self part : SchPart.t) (pre post : list item)
    (record : gmap (list N) (list byte)) (name text : list N) :
  SchPart.body self (pre ++ Rec (Some record) :: post) = Ok part ->
  is_property record name text ->
  no_record (fun r => names_property r name) post ->
  SchPart.properties part !! name = Some text.
Proof.
  intros Hbody Hprop Hpost. rewrite body_app in Hbody.
  destruct (SchPart.body self pre) as [self'|]; [| discriminate].
  simpl in Hbody.
  rewrite (dispatch_is_property self' record name text Hprop) in Hbody.
  simpl in Hbody.
  rewrite (body_keeps_property name post _ _ Hbody Hpost).
  simpl. apply lookup_insert_eq.
Qed.

Lemma body_last_footprint (self part : SchPart.t) (pre post : list item)
    (record : gmap (list N) (list byte)) (name text : list N) :
  SchPart.body self (pre ++ Rec (Some record) :: post) = Ok part ->
  is_footprint record name text ->
  no_record (fun r => names_footprint r name) post ->
  SchPart.footprints part !! name = Some text.
Proof.
  intros Hbody Hfoot Hpost. rewrite body_app in Hbody.
  destruct (SchPart.body self pre) as [self'|]; [| discriminate].
  simpl in Hbody.
  rewrite (dispatch_is_footprint self' record name text Hfoot) in Hbody.
  simpl in Hbody.
  rewrite (body_keeps_footprint name post _ _ Hbody Hpost).
  simpl. apply lookup_insert_eq.
Qed.

(** ** The discovery loop *)

#[local] Instance LIBREF_Inj : Inj (=) (=) SchLib.LIBREF.
Proof. intros n m. apply LIBREF_inj. Qed.

Section Discovery.

Context (file : OleFileIO) (header : gmap (list N) (list byte)).

Implicit Types (parts : gmap (list N) SchPart.t) (cnt k fuel : nat).

(** A header that has [LIBREF0] .. [LIBREF{k-1}] has at least [k] keys. *)
Lemma present_bound k :
  (forall n, (n < k)%nat -> is_Some (header !! SchLib.LIBREF n)) ->
  (k <= size header)%nat.
Proof.
  intros Hpresent.
  set (keys := SchLib.LIBREF <$> seq 0 k).
  assert (Hnodup : NoDup keys)
    by (apply (NoDup_fmap_2 _), NoDup_seq).
  assert (Hsub : (list_to_set keys : gset (list N)) ⊆ dom header).
  { intros key Hkey. apply elem_of_list_to_set in Hkey.
    apply list_elem_of_fmap in Hkey as (n & -> & Hn).
    apply elem_of_seq in Hn. apply elem_of_dom, Hpresent. lia. }
  apply subseteq_size in Hsub.
  rewrite size_list_to_set, size_dom in Hsub by exact Hnodup.
  unfold keys in Hsub. rewrite length_fmap, length_seq in Hsub. exact Hsub.
Qed.

Lemma description_Ok cnt :
  SchLib.description header cnt = Ok (description_text header cnt).
Proof.
  unfold SchLib.description. rewrite get_default_get. reflexivity.
Qed.

(** The three ways in which a round of the loop ends. *)
Lemma iteration_gap parts cnt :
  gap header cnt ->
  SchLib.iteration file header parts cnt = SchLib.Break.
Proof.
  unfold SchLib.iteration. rewrite description_Ok.
  intros [-> | ->]; reflexivity.
Qed.

Lemma iteration_reference parts cnt (name : list N) :
  reference header cnt name ->
  SchLib.iteration file header parts cnt =
    match openstream file [name; U "Data"] with
    | Raise e => SchLib.Propagate e
    | Ok stream =>
      match SchPart.init stream (description_text header cnt) with
      | Ok part => SchLib.Continue (<[name := part]> parts)
      | Raise e =>
        if is_ValueError e then SchLib.Continue parts else SchLib.Propagate e
      end
    end.
Proof.
  intros (libref & Hget & Hne & Hdec).
  unfold SchLib.iteration. rewrite description_Ok, Hget.
  destruct libref as [|c libref]; [congruence |].
  rewrite Hdec. simpl.
  destruct (openstream file _); reflexivity.
Qed.

Lemma iteration_part_at parts cnt (name : list N) (part : SchPart.t) :
  part_at file header cnt name part ->
  SchLib.iteration file header parts cnt
    = SchLib.Continue (<[name := part]> parts).
Proof.
  intros (Href & stream & Hopen & Hinit).
  rewrite (iteration_reference _ _ name Href), Hopen, Hinit.
  reflexivity.
Qed.

Lemma iteration_Break_inv parts cnt :
  SchLib.iteration file header parts cnt = SchLib.Break -> gap header cnt.
Proof.
  unfold SchLib.iteration, gap. rewrite description_Ok.
  destruct (get header (SchLib.LIBREF cnt) None) as [[|c libref]|];
    [auto | | auto].
  destruct (let* name := decode_ascii (c :: libref) in _) as [[name stream]|];
    [| discriminate].
  destruct (SchPart.init stream _) as [part|e]; [discriminate |].
  destruct (is_ValueError e); discriminate.
Qed.

Lemma iteration_Continue_inv parts parts' cnt :
  SchLib.iteration file header parts cnt = SchLib.Continue parts' ->
  exists name, reference header cnt name /\
    (parts' = parts \/
     exists part, part_at file header cnt name part /\
                  parts' = <[name := part]> parts).
Proof.
  unfold SchLib.iteration. rewrite description_Ok.
  destruct (get header (SchLib.LIBREF cnt) None) as [[|c libref]|] eqn:Hget;
    [discriminate | | discriminate].
  destruct (decode_ascii (c :: libref)) as [name|] eqn:Hdec;
    [| discriminate]. simpl.
  destruct (openstream file [name; U "Data"]) as [stream|] eqn:Hopen;
    [| discriminate]. simpl.
  assert (Href : reference header cnt name)
    by (exists (c :: libref); split; [exact Hget |];
        split; [discriminate | exact Hdec]).
  destruct (SchPart.init stream (description_text header cnt))
    as [part|e] eqn:Hinit.
  - intros [= <-]. exists name. split; [exact Href |]. right.
    exists part. split; [| reflexivity]. split; [exact Href |].
    exists stream. auto.
  - destruct (is_ValueError e); [| discriminate].
    intros [= <-]. exists name. auto.
Qed.

Lemma iteration_Continue_present parts parts' cnt :
  SchLib.iteration file header parts cnt = SchLib.Continue parts' ->
  is_Some (header !! SchLib.LIBREF cnt).
Proof.
  intros Hit. apply iteration_Continue_inv in Hit
    as (name & (libref & Hget & _) & _).
  rewrite <- get_LIBREF, Hget. eauto.
Qed.

(** The loop ends within the fuel that [SchLib.__init__] gives it. *)
Lemma discover_total fuel :
  forall parts cnt,
  (forall n, (n < cnt)%nat -> is_Some (header !! SchLib.LIBREF n)) ->
  (size header < cnt + fuel)%nat ->
  is_Some (SchLib.discover fuel file header parts cnt).
Proof.
  induction fuel as [|fuel IH]; intros parts cnt Hpresent Hfuel.
  - apply present_bound in Hpresent. lia.
  - simpl. destruct (SchLib.iteration file header parts cnt) as [|parts'|e]
      eqn:Hit; [eauto | | eauto].
    apply IH; [| lia].
    intros n Hn. destruct (decide (n = cnt)) as [->|Hne].
    + eapply iteration_Continue_present, Hit.
    + apply Hpresent. lia.
Qed.

Lemma reaches_present parts cnt :
  reaches file header parts cnt ->
  forall n, (n < cnt)%nat -> is_Some (header !! SchLib.LIBREF n).
Proof.
  induction 1 as [|parts parts' cnt Hreach IH Hit]; intros n Hn; [lia |].
  destruct (decide (n = cnt)) as [->|Hne].
  - eapply iteration_Continue_present, Hit.
  - apply IH. lia.
Qed.

Lemma reaches_discover parts cnt :
  reaches file header parts cnt ->
  forall fuel,
  SchLib.discover (cnt + fuel) file header ∅ 0 =
    SchLib.discover fuel file header parts cnt.
Proof.
  induction 1 as [|parts parts' cnt Hreach IH Hit]; intros fuel;
    [reflexivity |].
  replace (S cnt + fuel)%nat with (cnt + S fuel)%nat by lia.
  rewrite IH. simpl. rewrite Hit. reflexivity.
Qed.

(** Every entry of the table was stored for some index, with the
    description of that index. *)
Lemma reaches_descriptions parts k :
  reaches file header parts k ->
  forall name part, parts !! name = Some part ->
  exists cnt, (cnt < k)%nat /\ part_at file header cnt name part.
Proof.
  induction 1 as [|parts parts' k Hreach IH Hit]; intros name part Hpart.
  - rewrite lookup_empty in Hpart. discriminate.
  - apply iteration_Continue_inv in Hit
      as (name' & Href & [-> | (part' & Hat & ->)]).
    + destruct (IH name part Hpart) as (cnt & Hcnt & Hat).
      exists cnt. split; [lia | exact Hat].
    + destruct (decide (name' = name)) as [->|Hne].
      * rewrite lookup_insert_eq in Hpart. injection Hpart as <-.
        exists k. split; [lia | exact Hat].
      * rewrite lookup_insert_ne in Hpart by exact Hne.
        destruct (IH name part Hpart) as (cnt & Hcnt & Hat').
        exists cnt. split; [lia | exact Hat'].
Qed.

Lemma discover_Ok_reaches fuel :
  forall parts0 parts cnt0,
  reaches file header parts0 cnt0 ->
  SchLib.discover fuel file header parts0 cnt0 = Some (Ok parts) ->
  exists cnt, reaches file header parts cnt /\ gap header cnt.
Proof.
  induction fuel as [|fuel IH]; intros parts0 parts cnt0 Hreach;
    [discriminate |].
  simpl. destruct (SchLib.iteration file header parts0 cnt0)
    as [|parts1|e] eqn:Hit.
  - intros [= <-]. exists cnt0. split; [exact Hreach |].
    eapply iteration_Break_inv, Hit.
  - apply IH. eapply reaches_next; eassumption.
  - discriminate.
Qed.

Hypothesis Hheader : SchLib.read_header file = Ok header.

(** From the index it has reached, [SchLib.__init__] ends as the next
    round of the loop decides. *)
Lemma init_reaches parts cnt :
  reaches file header parts cnt ->
  exists fuel,
    SchLib.init file = SchLib.discover (S fuel) file header parts cnt.
Proof using Hheader.
  intros Hreach. unfold SchLib.init. rewrite Hheader.
  pose proof (present_bound cnt (reaches_present _ _ Hreach)) as Hbound.
  exists (size header - cnt)%nat.
  rewrite <- (reaches_discover _ _ Hreach). f_equal. lia.
Qed.

Lemma init_Break parts cnt :
  reaches file header parts cnt ->
  SchLib.iteration file header parts cnt = SchLib.Break ->
  SchLib.init file = Some (Ok parts).
Proof using Hheader.
  intros Hreach Hit.
  destruct (init_reaches _ _ Hreach) as [fuel ->].
  simpl. rewrite Hit. reflexivity.
Qed.

Lemma init_Propagate parts cnt (e : exn) :
  reaches file header parts cnt ->
  SchLib.iteration file header parts cnt = SchLib.Propagate e ->
  SchLib.init file = Some (Raise e).
Proof using Hheader.
  intros Hreach Hit.
  destruct (init_reaches _ _ Hreach) as [fuel ->].
  simpl. rewrite Hit. reflexivity.
Qed.

Lemma init_Ok_reaches parts :
  SchLib.init file = Some (Ok parts) ->
  exists cnt, reaches file header parts cnt /\ gap header cnt.
Proof using Hheader.
  unfold SchLib.init. rewrite Hheader.
  apply discover_Ok_reaches. constructor.
Qed.

End Discovery.

(** [SchLib.__init__] always ends: the fuel it is given is enough. *)
Lemma init_total (file : OleFileIO) : is_Some (SchLib.init file).
Proof.
  unfold SchLib.init. destruct (SchLib.read_header file) as [header|e];
    [| eauto].
  apply discover_total; [intros n Hn; lia | lia].
Qed.

(** ** Failures of one part inside the library *)

Lemma header_id_lacks_identity (header : gmap (list N) (list byte)) :
  lacks_identity header ->
  SchPart.header_id (Some header) = Raise AttributeError.
Proof. intros [Hd Hl]. simpl. rewrite Hd, Hl. reflexivity. Qed.

Lemma header_id_non_ascii (header : gmap (list N) (list byte)) :
  identity_non_ascii header ->
  SchPart.header_id (Some header) = Raise UnicodeDecodeError.
Proof.
  intros [(v & Hd & Hv) | (Hd & v & Hl & Hv)]; simpl; rewrite Hd.
  - apply decode_ascii_non_ascii, Hv.
  - rewrite Hl. apply decode_ascii_non_ascii, Hv.
Qed.

Lemma dispatch_non_ascii (self : SchPart.t)
    (record : gmap (list N) (list byte)) :
  decodes_non_ascii record ->
  SchPart.dispatch self record = Raise UnicodeDecodeError.
Proof.
  intros [v Hk Hv Hna | v name t Hk Hv Hname Ht Hna | t Hk Ht Hna
         | v Hk Hv Hna | v name t Hk Hv Hname Ht Hna].
  - rewrite dispatch_property, Hv by exact Hk. simpl.
    rewrite decode_ascii_non_ascii by exact Hna. reflexivity.
  - rewrite dispatch_property, Hv by exact Hk. simpl. rewrite Hname. simpl.
    rewrite (get_Some_default _ _ _ _ Ht). simpl.
    rewrite decode_ascii_non_ascii by exact Hna. reflexivity.
  - rewrite dispatch_designator, Ht by exact Hk. simpl.
    rewrite decode_ascii_non_ascii by exact Hna. reflexivity.
  - rewrite dispatch_footprint, Hv by exact Hk. simpl.
    rewrite decode_ascii_non_ascii by exact Hna. reflexivity.
  - rewrite dispatch_footprint, Hv by exact Hk. simpl. rewrite Hname. simpl.
    rewrite (get_Some_default _ _ _ _ Ht). simpl.
    rewrite decode_ascii_non_ascii by exact Hna. reflexivity.
Qed.

Lemma init_reads_non_ascii (description : list N) (stream : list item) :
  reads_non_ascii description stream ->
  SchPart.init stream description = Raise UnicodeDecodeError.
Proof.
  intros [header records Hid | header id pre self record post Hid Hpre Hrec];
    unfold SchPart.init.
  - rewrite header_id_non_ascii by exact Hid. reflexivity.
  - rewrite Hid. simpl. rewrite body_app, Hpre. simpl.
    rewrite dispatch_non_ascii by exact Hrec. reflexivity.
Qed.

(** ** The header checks *)

Lemma check_cases (r : gmap (list N) (list byte)) (key : list N)
    (expected alternate : option (list byte)) :
  (check r key expected alternate = Ok tt /\
   exists v, get r key None = Some v /\
             (Some v = expected \/ Some v = alternate))
  \/ (check r key expected alternate = Raise FormatError /\
      ~ exists v, get r key None = Some v /\
                  (Some v = expected \/ Some v = alternate)).
Proof.
  unfold check, get. destruct (r !! upper key) as [v|].
  - destruct (bool_decide (Some v = expected)
              || bool_decide (Some v = alternate)) eqn:Hb.
    + left. split; [reflexivity |]. exists v. split; [reflexivity |].
      apply orb_true_iff in Hb as [Hb | Hb];
        apply bool_decide_eq_true in Hb; auto.
    + right. split; [reflexivity |]. intros (v' & [= <-] & Hv).
      apply orb_false_iff in Hb as [Hb1 Hb2].
      apply bool_decide_eq_false in Hb1, Hb2. tauto.
  - right. split; [reflexivity |]. intros (v & [=] & _).
Qed.

(** ** Counting the references *)

Lemma first_gap_spec (header : gmap (list N) (list byte)) (fuel : nat) :
  forall cnt,
  (forall i, (i < cnt)%nat -> is_Some (header !! SchLib.LIBREF i)) ->
  (size header < cnt + fuel)%nat ->
  (cnt <= first_gap header fuel cnt)%nat /\
  (forall i, (cnt <= i < first_gap header fuel cnt)%nat ->
     exists libref,
       get header (SchLib.LIBREF i) None = Some libref /\ libref <> []) /\
  gap header (first_gap header fuel cnt).
Proof.
  induction fuel as [|fuel IH]; intros cnt Hpresent Hfuel.
  - apply present_bound in Hpresent. lia.
  - simpl. unfold gap.
    destruct (get header (SchLib.LIBREF cnt) None) as [[|c libref]|] eqn:Hget.
    + split; [lia |]. split; [intros i Hi; lia | auto].
    + destruct (IH (S cnt)) as (Hle & Hbefore & Hgap); [| lia |].
      * intros i Hi. destruct (decide (i = cnt)) as [->|Hne].
        -- rewrite <- get_LIBREF, Hget. eauto.
        -- apply Hpresent. lia.
      * split; [lia |]. split; [| exact Hgap].
        intros i Hi. destruct (decide (i = cnt)) as [->|Hne].
        -- exists (c :: libref). split; [exact Hget | discriminate].
        -- apply Hbefore. lia.
    + split; [lia |]. split; [intros i Hi; lia | auto].
Qed.

Lemma contiguous_references_spec (header : gmap (list N) (list byte)) :
  (forall i, (i < contiguous_references header)%nat ->
     exists libref,
       get header (SchLib.LIBREF i) None = Some libref /\ libref <> []) /\
  gap header (contiguous_references header).
Proof.
  destruct (first_gap_spec header (S (size header)) 0)
    as (_ & Hbefore & Hgap); [intros i Hi; lia | lia |].
  split; [| exact Hgap]. intros i Hi. apply Hbefore.
  unfold contiguous_references in Hi. lia.
Qed.

(** The loop invariant of a well-formed library: at index [k] the table
    has [k] entries, stored under the references of the indices below
    [k]. *)
Lemma well_formed_reaches (file : OleFileIO)
    (header : gmap (list N) (list byte)) (k : nat) :
  well_formed file header ->
  (k <= contiguous_references header)%nat ->
  exists parts : gmap (list N) SchPart.t,
    reaches file header parts k /\ size parts = k /\
    forall name, is_Some (parts !! name) ->
      exists i, (i < k)%nat /\ reference header i name.
Proof.
  intros (Hheader & Hparts & Hunique). induction k as [|k IH]; intros Hk.
  - exists ∅. split; [constructor |]. split; [apply map_size_empty |].
    intros name [part Hpart]. rewrite lookup_empty in Hpart. discriminate.
  - destruct IH as (parts & Hreach & Hsize & Hdom); [lia |].
    destruct (Hparts k) as (name & part & Hat); [lia |].
    exists (<[name := part]> parts).
    split; [| split].
    + eapply reaches_next; [exact Hreach |].
      apply iteration_part_at, Hat.
    + rewrite map_size_insert_None; [lia |].
      destruct (parts !! name) as [other|] eqn:Hother; [| reflexivity].
      destruct (Hdom name) as (i & Hi & Href); [eauto |].
      assert (i = k) by (apply (Hunique i k name); [lia | lia | | apply Hat];
                         exact Href).
      lia.
    + intros name' Hsome. destruct (decide (name = name')) as [<-|Hne].
      * exists k. split; [lia | apply Hat].
      * rewrite lookup_insert_ne in Hsome by exact Hne.
        destruct (Hdom name' Hsome) as (i & Hi & Href).
        exists i. split; [lia | exact Href].
Qed.

Lemma two_references_count : contiguous_references two_references = 2%nat.
Proof. vm_compute. reflexivity. Qed.

Lemma reference_two_references (i : nat) (name : list N) :
  reference two_references i name ->
  (i = 0%nat /\ name = U "RES") \/ (i = 1%nat /\ name = U "CAP")
  \/ (2 <= i)%nat.
Proof.
  intros (libref & Hget & _ & Hdec).
  destruct i as [|[|i]]; [left | right; left | right; right; lia];
    vm_compute in Hget; injection Hget as <-;
    vm_compute in Hdec; injection Hdec as <-; split; reflexivity.
Qed.

(** ** UTF-8 decoding with replacement *)

Example utf8_replace_euro : utf8_replace [226; 130; 172] = [8364].
Proof. reflexivity. Qed.

(** A truncated sequence gives one U+FFFD. *)
Example utf8_replace_truncated :
  utf8_replace [65; 226; 130] = [65; REPLACEMENT].
Proof. reflexivity. Qed.

(** An overlong form and an encoded surrogate are ill-formed from their
    second byte on. *)
Example utf8_replace_overlong :
  utf8_replace [224; 128; 65] = [REPLACEMENT; REPLACEMENT; 65].
Proof. reflexivity. Qed.

Example utf8_replace_surrogate :
  utf8_replace [237; 160; 128] = [REPLACEMENT; REPLACEMENT; REPLACEMENT].
Proof. reflexivity. Qed.

(** A lead byte followed by a byte that is no continuation: the lead
    byte alone is replaced. *)
Example utf8_replace_latin1 :
  utf8_replace [233; 116; 233] = [REPLACEMENT; 116; REPLACEMENT].
Proof. reflexivity. Qed.

Lemma utf8_replace_ascii (bs : list N) :
  Forall (fun b => b < 128) bs -> utf8_replace bs = bs.
Proof.
  induction 1 as [|b bs Hb _ IH]; [reflexivity |].
  simpl. apply N.ltb_lt in Hb. rewrite Hb, IH. reflexivity.
Qed.

Ltac bool_to_prop :=
  repeat match goal with
  | H : _ && _ = true |- _ => apply andb_true_iff in H as [? ?]
  | H : (_ <=? _) = true |- _ => apply N.leb_le in H
  | H : (_ <? _) = true |- _ => apply N.ltb_lt in H
  | H : (_ <? _) = false |- _ => apply N.ltb_ge in H
  | H : (_ =? _) = true |- _ => apply N.eqb_eq in H
  | H : (_ =? _) = false |- _ => apply N.eqb_neq in H
  end.

Lemma second_ok_bounds lead c :
  second_ok lead c = true ->
  128 <= c <= 191 /\ (lead = 224 -> 160 <= c) /\ (lead = 237 -> c <= 159)
  /\ (lead = 240 -> 144 <= c) /\ (lead = 244 -> c <= 143).
Proof.
  unfold second_ok, is_cont.
  destruct (lead =? 224) eqn:E1; [|destruct (lead =? 237) eqn:E2; [|destruct (lead =? 240) eqn:E3; [| destruct (lead =? 244) eqn:E4]]];
  intros H; bool_to_prop; lia.
Qed.

Lemma utf8_replace_scalar (bs : list N) :
  Forall scalar (utf8_replace bs).
Proof.
  remember (length bs) as n eqn:Hn. revert bs Hn.
  induction n as [n IH] using lt_wf_ind. intros bs Hn.
  assert (Hrec : forall r, (length r < n)%nat -> Forall scalar (utf8_replace r))
    by (intros r Hr; eapply IH; [exact Hr | reflexivity]).
  assert (Hrepl : scalar REPLACEMENT) by (unfold scalar, REPLACEMENT; lia).
  clear IH. destruct bs as [|b0 r0]; [constructor |].
  simpl in Hn. cbn [utf8_replace].
  destruct (b0 <? 128) eqn:H0.
  { constructor; [bool_to_prop; unfold scalar; lia | apply Hrec; lia]. }
  destruct ((194 <=? b0) && (b0 <=? 223)) eqn:H2.
  { destruct r0 as [|b1 r1]; [constructor; [exact Hrepl | constructor] |].
    simpl in Hn. destruct (is_cont b1) eqn:Hc1.
    - constructor; [| apply Hrec; lia].
      unfold is_cont in Hc1. bool_to_prop. unfold scalar. lia.
    - constructor; [exact Hrepl | apply Hrec; simpl; lia]. }
  destruct ((224 <=? b0) && (b0 <=? 239)) eqn:H3.
  { destruct r0 as [|b1 r1]; [constructor; [exact Hrepl | constructor] |].
    simpl in Hn. destruct (second_ok b0 b1) eqn:Hs;
      [| constructor; [exact Hrepl | apply Hrec; simpl; lia]].
    destruct r1 as [|b2 r2]; [constructor; [exact Hrepl | constructor] |].
    simpl in Hn. destruct (is_cont b2) eqn:Hc2;
      [| constructor; [exact Hrepl | apply Hrec; simpl; lia]].
    constructor; [| apply Hrec; lia].
    apply second_ok_bounds in Hs. unfold is_cont in Hc2. bool_to_prop.
    unfold scalar. lia. }
  destruct ((240 <=? b0) && (b0 <=? 244)) eqn:H4.
  { destruct r0 as [|b1 r1]; [constructor; [exact Hrepl | constructor] |].
    simpl in Hn. destruct (second_ok b0 b1) eqn:Hs;
      [| constructor; [exact Hrepl | apply Hrec; simpl; lia]].
    destruct r1 as [|b2 r2]; [constructor; [exact Hrepl | constructor] |].
    simpl in Hn. destruct (is_cont b2) eqn:Hc2;
      [| constructor; [exact Hrepl | apply Hrec; simpl; lia]].
    destruct r2 as [|b3 r3]; [constructor; [exact Hrepl | constructor] |].
    simpl in Hn. destruct (is_cont b3) eqn:Hc3;
      [| constructor; [exact Hrepl | apply Hrec; simpl; lia]].
    constructor; [| apply Hrec; lia].
    apply second_ok_bounds in Hs. unfold is_cont in Hc2, Hc3. bool_to_prop.
    unfold scalar. lia. }
  constructor; [exact Hrepl | apply Hrec; lia].
Qed.

(** Well-formed input is decoded to the text it encodes. *)

Ltac settle_tests :=
  repeat match goal with
  | |- context [?a <? ?b] =>
    first [ replace (a <? b) with true by (symmetry; apply N.ltb_lt; lia)
          | replace (a <? b) with false by (symmetry; apply N.ltb_ge; lia) ]
  | |- context [?a <=? ?b] =>
    first [ replace (a <=? b) with true by (symmetry; apply N.leb_le; lia)
          | replace (a <=? b) with false by (symmetry; apply N.leb_gt; lia) ]
  | |- context [?a =? ?b] =>
    first [ replace (a =? b) with true by (symmetry; apply N.eqb_eq; lia)
          | replace (a =? b) with false by (symmetry; apply N.eqb_neq; lia) ]
  end.

Lemma utf8_replace_encode (c : N) (rest : list N) :
  scalar c ->
  utf8_replace (utf8_encode c ++ rest) = c :: utf8_replace rest.
Proof.
  intros [Hmax Hsur]. unfold utf8_encode.
  pose proof (N.div_mod c 64 ltac:(lia)) as E0.
  pose proof (N.mod_lt c 64 ltac:(lia)) as L0.
  pose proof (N.div_mod (c / 64) 64 ltac:(lia)) as E1.
  pose proof (N.mod_lt (c / 64) 64 ltac:(lia)) as L1.
  pose proof (N.div_mod (c / 64 / 64) 64 ltac:(lia)) as E2.
  pose proof (N.mod_lt (c / 64 / 64) 64 ltac:(lia)) as L2.
  replace (c / 4096) with (c / 64 / 64) by (rewrite N.Div0.div_div; reflexivity).
  replace (c / 262144) with (c / 64 / 64 / 64) by (rewrite !N.Div0.div_div; reflexivity).
  set (r0 := c mod 64) in *. set (q1 := c / 64) in *.
  set (r1 := q1 mod 64) in *. set (q2 := q1 / 64) in *.
  set (r2 := q2 mod 64) in *. set (q3 := q2 / 64) in *.
  clearbody r0 q1 r1 q2 r2 q3.
  destruct (N.ltb_spec c 128) as [H1|H1].
  { cbn -[N.ltb]. settle_tests. reflexivity. }
  destruct (N.ltb_spec c 2048) as [H2|H2].
  { cbn -[N.add N.sub N.mul N.ltb N.leb N.eqb is_cont second_ok].
    unfold is_cont. settle_tests. cbn [andb]. f_equal. lia. }
  destruct (N.ltb_spec c 65536) as [H3|H3].
  { cbn -[N.add N.sub N.mul N.ltb N.leb N.eqb is_cont second_ok].
    settle_tests. cbn [andb].
    assert (Hs : second_ok (224 + q2) (128 + r1) = true).
    { unfold second_ok, is_cont.
      destruct (N.eqb_spec (224 + q2) 224); [apply andb_true_iff; split; [apply N.leb_le | apply N.leb_le]; lia |].
      destruct (N.eqb_spec (224 + q2) 237); [apply andb_true_iff; split; [apply N.leb_le | apply N.leb_le]; lia |].
      destruct (N.eqb_spec (224 + q2) 240); [lia |].
      destruct (N.eqb_spec (224 + q2) 244); [lia |].
      apply andb_true_iff; split; apply N.leb_le; lia. }
    rewrite Hs. unfold is_cont. settle_tests. cbn [andb]. f_equal. lia. }
  cbn -[N.add N.sub N.mul N.ltb N.leb N.eqb is_cont second_ok].
  settle_tests. cbn [andb].
  assert (Hs : second_ok (240 + q3) (128 + r2) = true).
  { unfold second_ok, is_cont.
    destruct (N.eqb_spec (240 + q3) 224); [lia |].
    destruct (N.eqb_spec (240 + q3) 237); [lia |].
    destruct (N.eqb_spec (240 + q3) 240); [apply andb_true_iff; split; apply N.leb_le; lia |].
    destruct (N.eqb_spec (240 + q3) 244); [apply andb_true_iff; split; apply N.leb_le; lia |].
    apply andb_true_iff; split; apply N.leb_le; lia. }
  rewrite Hs. unfold is_cont. settle_tests. cbn [andb]. f_equal. lia.
Qed.

Lemma utf8_replace_encode_text (s : list N) :
  Forall scalar s -> utf8_replace (utf8_encode_text s) = s.
Proof.
  unfold utf8_encode_text.
  induction 1 as [|c s Hc _ IH]; [reflexivity |].
  simpl. rewrite (utf8_replace_encode c _ Hc), IH. reflexivity.
Qed.

(** The decoder against [decoding]: at every position it takes one step
    of the relation, and the relation allows no other. *)

Lemma no_start_replaced (bs tail : list N) :
  utf8_replace bs = REPLACEMENT :: tail ->
  (forall rest, bs <> 239 :: 191 :: 189 :: rest) ->
  no_start bs.
Proof.
  intros Hrep Hne c rest Hc ->.
  rewrite utf8_replace_encode in Hrep by exact Hc.
  injection Hrep as -> _. apply (Hne rest). reflexivity.
Qed.

Lemma no_start_continuation (b : N) (tail : list N) :
  128 <= b <= 191 -> no_start (b :: tail).
Proof.
  intros Hb. apply (no_start_replaced _ (utf8_replace tail)).
  - cbn [utf8_replace]. settle_tests. reflexivity.
  - intros rest [= -> _]. lia.
Qed.

Ltac div_facts c :=
  pose proof (N.div_mod c 64 ltac:(lia)) as E0;
  pose proof (N.mod_lt c 64 ltac:(lia)) as L0;
  pose proof (N.div_mod (c / 64) 64 ltac:(lia)) as E1;
  pose proof (N.mod_lt (c / 64) 64 ltac:(lia)) as L1;
  pose proof (N.div_mod (c / 64 / 64) 64 ltac:(lia)) as E2;
  pose proof (N.mod_lt (c / 64 / 64) 64 ltac:(lia)) as L2;
  replace (c / 4096) with (c / 64 / 64)
    by (rewrite N.Div0.div_div; reflexivity);
  replace (c / 262144) with (c / 64 / 64 / 64)
    by (rewrite !N.Div0.div_div; reflexivity);
  let r0 := fresh "r0" in let q1 := fresh "q1" in
  let r1 := fresh "r1" in let q2 := fresh "q2" in
  let r2 := fresh "r2" in let q3 := fresh "q3" in
  set (r0 := c mod 64) in *; set (q1 := c / 64) in *;
  set (r1 := q1 mod 64) in *; set (q2 := q1 / 64) in *;
  set (r2 := q2 mod 64) in *; set (q3 := q2 / 64) in *;
  clearbody r0 q1 r1 q2 r2 q3.

Lemma utf8_encode_2 (b0 b1 : N) :
  194 <= b0 <= 223 -> 128 <= b1 <= 191 ->
  utf8_encode ((b0 - 192) * 64 + (b1 - 128)) = [b0; b1].
Proof.
  intros H0 H1. unfold utf8_encode.
  set (c := (b0 - 192) * 64 + (b1 - 128)).
  assert (Hc : c = (b0 - 192) * 64 + (b1 - 128)) by reflexivity.
  div_facts c. clearbody c. settle_tests.
  f_equal; [lia | f_equal; lia].
Qed.

Lemma utf8_encode_3 (b0 b1 b2 : N) :
  224 <= b0 <= 239 -> second_ok b0 b1 = true -> 128 <= b2 <= 191 ->
  utf8_encode ((b0 - 224) * 4096 + (b1 - 128) * 64 + (b2 - 128))
    = [b0; b1; b2].
Proof.
  intros H0 H1 H2. apply second_ok_bounds in H1. unfold utf8_encode.
  set (c := (b0 - 224) * 4096 + (b1 - 128) * 64 + (b2 - 128)).
  assert (Hc : c = (b0 - 224) * 4096 + (b1 - 128) * 64 + (b2 - 128))
    by reflexivity.
  div_facts c. clearbody c. settle_tests.
  f_equal; [lia | f_equal; [lia | f_equal; lia]].
Qed.

Lemma utf8_encode_4 (b0 b1 b2 b3 : N) :
  240 <= b0 <= 244 -> second_ok b0 b1 = true -> 128 <= b2 <= 191 ->
  128 <= b3 <= 191 ->
  utf8_encode ((b0 - 240) * 262144 + (b1 - 128) * 4096 + (b2 - 128) * 64
               + (b3 - 128))
    = [b0; b1; b2; b3].
Proof.
  intros H0 H1 H2 H3. apply second_ok_bounds in H1. unfold utf8_encode.
  set (c := (b0 - 240) * 262144 + (b1 - 128) * 4096 + (b2 - 128) * 64
            + (b3 - 128)).
  assert (Hc : c = (b0 - 240) * 262144 + (b1 - 128) * 4096 + (b2 - 128) * 64
            + (b3 - 128)) by reflexivity.
  div_facts c. clearbody c. settle_tests.
  f_equal; [lia | f_equal; [lia | f_equal; [lia | f_equal; lia]]].
Qed.


Lemma not_begins (p : list N) :
  (forall more, exists tail, utf8_replace (p ++ more) = REPLACEMENT :: tail) ->
  (forall more, p ++ more <> [239; 191; 189]) ->
  ~ begins p.
Proof.
  intros Hrep Hne (c & more & Hc & Henc).
  destruct (Hrep more) as [tail Ht]. rewrite <- Henc in Ht.
  pose proof (utf8_replace_encode c [] Hc) as Hdec.
  rewrite app_nil_r in Hdec. rewrite Hdec in Ht. injection Ht as -> _.
  apply (Hne more). rewrite <- Henc. reflexivity.
Qed.

Lemma begins_prefix (p q : list N) : begins (p ++ q) -> begins p.
Proof.
  intros (c & more & Hc & Henc). exists c, (q ++ more).
  split; [exact Hc |]. rewrite Henc, <- app_assoc. reflexivity.
Qed.

Lemma begins_2 (b0 b1 : N) :
  194 <= b0 <= 223 -> 128 <= b1 <= 191 -> begins [b0; b1].
Proof.
  intros H0 H1. exists ((b0 - 192) * 64 + (b1 - 128)), [].
  split; [unfold scalar; lia | apply utf8_encode_2; lia].
Qed.

Lemma begins_3 (b0 b1 b2 : N) :
  224 <= b0 <= 239 -> second_ok b0 b1 = true -> 128 <= b2 <= 191 ->
  begins [b0; b1; b2].
Proof.
  intros H0 Hs H2.
  exists ((b0 - 224) * 4096 + (b1 - 128) * 64 + (b2 - 128)), [].
  split; [| apply utf8_encode_3; [lia | exact Hs | lia]].
  apply second_ok_bounds in Hs. unfold scalar. lia.
Qed.

Lemma begins_4 (b0 b1 b2 b3 : N) :
  240 <= b0 <= 244 -> second_ok b0 b1 = true -> 128 <= b2 <= 191 ->
  128 <= b3 <= 191 -> begins [b0; b1; b2; b3].
Proof.
  intros H0 Hs H2 H3.
  exists ((b0 - 240) * 262144 + (b1 - 128) * 4096 + (b2 - 128) * 64
          + (b3 - 128)), [].
  split; [| apply utf8_encode_4; [lia | exact Hs | lia | lia]].
  apply second_ok_bounds in Hs. unfold scalar. lia.
Qed.

Lemma second_ok_exists (b0 : N) : exists b1, second_ok b0 b1 = true.
Proof.
  unfold second_ok.
  destruct (b0 =? 224); [exists 160; reflexivity |].
  destruct (b0 =? 237); [exists 128; reflexivity |].
  destruct (b0 =? 240); [exists 144; reflexivity |].
  destruct (b0 =? 244); exists 128; reflexivity.
Qed.

Lemma begins_lead (b0 : N) : 194 <= b0 <= 244 -> begins [b0].
Proof.
  intros H0. destruct (second_ok_exists b0) as [b1 Hs].
  destruct (N.le_gt_cases b0 223);
    [apply (begins_prefix [b0] [128]), begins_2; lia |].
  destruct (N.le_gt_cases b0 239);
    [apply (begins_prefix [b0] [b1; 128]), begins_3; [lia | exact Hs | lia] |].
  apply (begins_prefix [b0] [b1; 128; 128]), begins_4;
    [lia | exact Hs | lia | lia].
Qed.

Lemma begins_second (b0 b1 : N) :
  224 <= b0 <= 244 -> second_ok b0 b1 = true -> begins [b0; b1].
Proof.
  intros H0 Hs. destruct (N.le_gt_cases b0 239);
    [apply (begins_prefix [b0; b1] [128]), begins_3; [lia | exact Hs | lia] |].
  apply (begins_prefix [b0; b1] [128; 128]), begins_4;
    [lia | exact Hs | lia | lia].
Qed.

Lemma begins_third (b0 b1 b2 : N) :
  240 <= b0 <= 244 -> second_ok b0 b1 = true -> 128 <= b2 <= 191 ->
  begins [b0; b1; b2].
Proof.
  intros H0 Hs H2. apply (begins_prefix [b0; b1; b2] [128]), begins_4;
    [lia | exact Hs | lia | lia].
Qed.

Ltac settle_branch :=
  cbn [app utf8_replace drop];
  repeat match goal with H : _ = _ :> bool |- _ => rewrite H end.

Ltac replaced_at k :=
  right; exists k; split; [cbn [length]; lia |];
  match goal with
  | |- ?lhs = ?rhs /\ _ =>
    assert (Heq : lhs = rhs);
    [ settle_branch; reflexivity | split; [exact Heq |] ]
  end;
  cbn [take drop].

Ltac not_extended :=
  intros ? ? [= <- <-]; apply not_begins;
  [ intros more; eexists; settle_branch; reflexivity
  | cbn [app] ].

Lemma utf8_replace_step (bs : list N) :
  bs <> [] ->
  (exists c rest, scalar c /\ bs = utf8_encode c ++ rest
                  /\ utf8_replace bs = c :: utf8_replace rest)
  \/ (exists k, (1 <= k <= length bs)%nat
        /\ utf8_replace bs = REPLACEMENT :: utf8_replace (drop k bs)
        /\ (forall i, (i < k)%nat -> no_start (drop i bs))
        /\ (begins (take k bs) \/ k = 1%nat)
        /\ (forall b rest', drop k bs = b :: rest' ->
              ~ begins (take k bs ++ [b]))).
Proof.
  assert (Hvalid : forall c enc rest,
    scalar c -> utf8_encode c = enc ->
    exists c' rest', scalar c' /\ enc ++ rest = utf8_encode c' ++ rest'
      /\ utf8_replace (enc ++ rest) = c' :: utf8_replace rest').
  { intros c enc rest Hc <-. exists c, rest.
    split; [exact Hc |]. split; [reflexivity |].
    apply utf8_replace_encode, Hc. }
  assert (Hfirst : forall b0 r0 tail,
    utf8_replace (b0 :: r0) = REPLACEMENT :: tail -> b0 <> 239 ->
    no_start (b0 :: r0)).
  { intros b0 r0 tail Heq Hne. apply (no_start_replaced _ tail Heq).
    intros rest [= -> _]. apply Hne. reflexivity. }
  destruct bs as [|b0 r0]; [congruence |]. intros _.
  destruct (b0 <? 128) eqn:H0.
  { left. apply (Hvalid b0 [b0] r0).
    - bool_to_prop. unfold scalar. lia.
    - unfold utf8_encode. rewrite H0. reflexivity. }
  destruct ((194 <=? b0) && (b0 <=? 223)) eqn:H2.
  { assert (Hb0 : 194 <= b0 <= 223) by (bool_to_prop; lia).
    assert (Hne : b0 <> 239) by lia.
    destruct r0 as [|b1 r1].
    { replaced_at 1%nat. split; [| split; [right; reflexivity | intros ? ? [=]]].
      intros [|i] Hi; [| lia]. apply (Hfirst _ _ _ Heq Hne). }
    destruct (is_cont b1) eqn:Hc1.
    - left. unfold is_cont in Hc1. bool_to_prop.
      apply (Hvalid ((b0 - 192) * 64 + (b1 - 128)) [b0; b1] r1);
        [unfold scalar; lia | apply utf8_encode_2; lia].
    - replaced_at 1%nat. split; [| split; [right; reflexivity |]].
      + intros [|i] Hi; [| lia]. apply (Hfirst _ _ _ Heq Hne).
      + not_extended. intros more [= -> _]. lia. }
  destruct ((224 <=? b0) && (b0 <=? 239)) eqn:H3.
  { assert (Hb0 : 224 <= b0 <= 239) by (bool_to_prop; lia).
    destruct r0 as [|b1 r1].
    { replaced_at 1%nat. split; [| split; [right; reflexivity | intros ? ? [=]]].
      intros [|i] Hi; [| lia].
      apply (no_start_replaced _ _ Heq). intros rest [=]. }
    destruct (second_ok b0 b1) eqn:Hs.
    2:{ replaced_at 1%nat. split; [| split; [right; reflexivity |]].
        - intros [|i] Hi; [| lia].
          apply (no_start_replaced _ _ Heq). intros rest [= -> -> ->].
          discriminate Hs.
        - not_extended. intros more [= -> -> _]. discriminate Hs. }
    pose proof (second_ok_bounds _ _ Hs) as (Hb1 & _).
    assert (Hbegins : begins [b0; b1])
      by (apply begins_second; [lia | exact Hs]).
    destruct r1 as [|b2 r2].
    { replaced_at 2%nat. split; [| split; [left; exact Hbegins | intros ? ? [=]]].
      intros [|[|i]] Hi; [| | lia].
      - apply (no_start_replaced _ _ Heq). intros rest [=].
      - apply no_start_continuation, Hb1. }
    destruct (is_cont b2) eqn:Hc2.
    - left. unfold is_cont in Hc2.
      pose proof (second_ok_bounds _ _ Hs) as Hb. bool_to_prop.
      apply (Hvalid ((b0 - 224) * 4096 + (b1 - 128) * 64 + (b2 - 128))
               [b0; b1; b2] r2);
        [unfold scalar; lia | apply utf8_encode_3; [lia | exact Hs | lia]].
    - replaced_at 2%nat. split; [| split; [left; exact Hbegins |]].
      + intros [|[|i]] Hi; [| | lia].
        * apply (no_start_replaced _ _ Heq). intros rest [= -> -> -> ->].
          discriminate Hc2.
        * apply no_start_continuation, Hb1.
      + not_extended. intros more [= -> -> -> _]. discriminate Hc2. }
  destruct ((240 <=? b0) && (b0 <=? 244)) eqn:H4.
  { assert (Hb0 : 240 <= b0 <= 244) by (bool_to_prop; lia).
    assert (Hne : b0 <> 239) by lia.
    destruct r0 as [|b1 r1].
    { replaced_at 1%nat. split; [| split; [right; reflexivity | intros ? ? [=]]].
      intros [|i] Hi; [| lia]. apply (Hfirst _ _ _ Heq Hne). }
    destruct (second_ok b0 b1) eqn:Hs.
    2:{ replaced_at 1%nat. split; [| split; [right; reflexivity |]].
        - intros [|i] Hi; [| lia]. apply (Hfirst _ _ _ Heq Hne).
        - not_extended. intros more [= -> _]. lia. }
    pose proof (second_ok_bounds _ _ Hs) as (Hb1 & _).
    assert (Hbegins : begins [b0; b1])
      by (apply begins_second; [lia | exact Hs]).
    destruct r1 as [|b2 r2].
    { replaced_at 2%nat. split; [| split; [left; exact Hbegins | intros ? ? [=]]].
      intros [|[|i]] Hi; [| | lia].
      - apply (Hfirst _ _ _ Heq Hne).
      - apply no_start_continuation, Hb1. }
    destruct (is_cont b2) eqn:Hc2.
    2:{ replaced_at 2%nat. split; [| split; [left; exact Hbegins |]].
        - intros [|[|i]] Hi; [| | lia].
          + apply (Hfirst _ _ _ Heq Hne).
          + apply no_start_continuation, Hb1.
        - not_extended. intros more [= -> _]. lia. }
    assert (Hb2 : 128 <= b2 <= 191)
      by (unfold is_cont in Hc2; bool_to_prop; lia).
    assert (Hbegins3 : begins [b0; b1; b2])
      by (apply begins_third; [lia | exact Hs | lia]).
    destruct r2 as [|b3 r3].
    { replaced_at 3%nat. split; [| split; [left; exact Hbegins3 | intros ? ? [=]]].
      intros [|[|[|i]]] Hi; [| | | lia].
      - apply (Hfirst _ _ _ Heq Hne).
      - apply no_start_continuation, Hb1.
      - apply no_start_continuation, Hb2. }
    destruct (is_cont b3) eqn:Hc3.
    - left. unfold is_cont in Hc3.
      pose proof (second_ok_bounds _ _ Hs) as Hb. bool_to_prop.
      apply (Hvalid ((b0 - 240) * 262144 + (b1 - 128) * 4096
                     + (b2 - 128) * 64 + (b3 - 128)) [b0; b1; b2; b3] r3);
        [unfold scalar; lia
        | apply utf8_encode_4; [lia | exact Hs | lia | lia]].
    - replaced_at 3%nat. split; [| split; [left; exact Hbegins3 |]].
      + intros [|[|[|i]]] Hi; [| | | lia].
        * apply (Hfirst _ _ _ Heq Hne).
        * apply no_start_continuation, Hb1.
        * apply no_start_continuation, Hb2.
      + not_extended. intros more [=]. }
  assert (Hne : b0 <> 239) by (intros ->; discriminate H3).
  replaced_at 1%nat. split; [| split; [right; reflexivity |]].
  - intros [|i] Hi; [| lia]. apply (Hfirst _ _ _ Heq Hne).
  - intros b rest' _. apply not_begins.
    + intros more. eexists. settle_branch. reflexivity.
    + intros more [= -> _]. apply Hne. reflexivity.
Qed.

Lemma utf8_replace_decoding (bs : list N) : decoding bs (utf8_replace bs).
Proof.
  remember (length bs) as n eqn:Hn. revert bs Hn.
  induction n as [n IH] using lt_wf_ind. intros bs ->.
  destruct bs as [|b0 r0]; [constructor |].
  destruct (utf8_replace_step (b0 :: r0)) as
    [(c & rest & Hc & Hbs & ->) | (k & Hk & -> & Hno & Hbegins & Hmax)];
    [discriminate | |].
  - rewrite Hbs. constructor; [exact Hc |].
    apply (IH (length rest)); [| reflexivity].
    rewrite Hbs, length_app. unfold utf8_encode.
    repeat match goal with |- context [if ?t then _ else _] => destruct t end;
      cbn [length]; lia.
  - rewrite <- (take_drop k (b0 :: r0)) at 1.
    assert (Htake : length (take k (b0 :: r0)) = k)
      by (rewrite length_take; lia).
    constructor.
    + intros Hnil. rewrite Hnil in Htake. simpl in Htake. lia.
    + rewrite Htake, take_drop. exact Hno.
    + destruct Hbegins as [Hbegins | ->]; [left; exact Hbegins | right].
      exact Htake.
    + exact Hmax.
    + apply (IH (length (drop k (b0 :: r0)))); [| reflexivity].
      rewrite length_drop. lia.
Qed.

Lemma decoding_unique (bs text : list N) :
  decoding bs text -> text = utf8_replace bs.
Proof.
  induction 1 as [| c rest text Hc _ IH
                  | skipped rest text Hne Hno Hbegins Hmax _ IH].
  - reflexivity.
  - rewrite utf8_replace_encode by exact Hc. rewrite IH. reflexivity.
  - destruct (utf8_replace_step (skipped ++ rest)) as
      [(c & rest' & Hc & Hbs & _) | (k & Hk & -> & _ & Hbegins' & Hmax')].
    + destruct skipped; [congruence | discriminate].
    + exfalso. refine (Hno 0%nat _ c rest' Hc Hbs).
      destruct skipped; [congruence | simpl; lia].
    + f_equal. rewrite IH. f_equal.
      assert (Hlen : (0 < length skipped)%nat)
        by (destruct skipped; [congruence | simpl; lia]).
      destruct (lt_eq_lt_dec k (length skipped)) as [[Hlt | ->] | Hgt].
      * exfalso.
        destruct Hbegins as [Hbegins | Hone]; [| lia].
        destruct (drop k skipped) as [|b more] eqn:Hdrop.
        { apply (f_equal length) in Hdrop. rewrite length_drop in Hdrop.
          simpl in Hdrop. lia. }
        apply (Hmax' b (more ++ rest)).
        { rewrite drop_app_le by lia. rewrite Hdrop. reflexivity. }
        rewrite take_app_le by lia.
        apply (begins_prefix _ more).
        rewrite <- app_assoc. cbn [app]. rewrite <- Hdrop, take_drop.
        exact Hbegins.
      * rewrite drop_app_length. reflexivity.
      * exfalso.
        destruct Hbegins' as [Hbegins' | Hone]; [| lia].
        rewrite length_app in Hk.
        destruct rest as [|b rest']; [simpl in Hk; lia |].
        apply (Hmax b rest' eq_refl).
        apply (begins_prefix _ (take (k - S (length skipped)) rest')).
        rewrite <- app_assoc. cbn [app].
        replace (skipped ++ b :: take (k - S (length skipped)) rest')
          with (take k (skipped ++ b :: rest')); [exact Hbegins' |].
        rewrite take_app_ge by lia.
        replace (k - length skipped)%nat with (S (k - S (length skipped)))
          by lia.
        reflexivity.
Qed.

(** ** Descriptions *)

Lemma replace_newline_no_newline (s : list N) : NEWLINE ∉ replace_newline s.
Proof.
  unfold replace_newline. intros Hin.
  apply list_elem_of_fmap in Hin as (c & Hc & _).
  destruct (N.eqb_spec c NEWLINE) as [Heq|Hne]; [discriminate | congruence].
Qed.

Lemma replace_newline_lookup (s : list N) (i : nat) :
  replace_newline s !! i =
    (fun c => if c =? NEWLINE then SPACE else c) <$> s !! i.
Proof. unfold replace_newline. apply list_lookup_fmap. Qed.

Lemma init_desc (stream : list item) (description : list N)
    (part : SchPart.t) :
  SchPart.init stream description = Ok part ->
  SchPart.desc part = description.
Proof.
  unfold SchPart.init. destruct stream as [|[header|e] records];
    [discriminate | | discriminate].
  destruct (SchPart.header_id header) as [id|]; [| discriminate]. simpl.
  intros Hbody. apply body_id_desc in Hbody as [_ ->]. reflexivity.
Qed.

(** * The claims *)

(** C1, amended: when the header record of a part data stream has
    neither [DESIGNITEMID] nor [LIBREFERENCE], the construction of the
    Part fails with an [AttributeError]; this is not a [ValueError], so
    the [except ValueError] clause of the library does not catch it, and
    the construction of the library fails with that error: no part table
    is produced. *)
Theorem missing_identity_aborts_library (file : OleFileIO)
    (header : gmap (list N) (list byte)) (parts : gmap (list N) SchPart.t)
    (cnt : nat) (name : list N) (part_header : gmap (list N) (list byte))
    (records : list item) :
  SchLib.read_header file = Ok header ->
  reaches file header parts cnt ->
  reference header cnt name ->
  openstream file [name; U "Data"] = Ok (Rec (Some part_header) :: records) ->
  lacks_identity part_header ->
  (forall description,
     SchPart.init (Rec (Some part_header) :: records) description
       = Raise AttributeError)
  /\ is_ValueError AttributeError = false
  /\ SchLib.init file = Some (Raise AttributeError).
Proof.
  intros Hheader Hreach Href Hopen Hlacks.
  assert (Hinit : forall description,
    SchPart.init (Rec (Some part_header) :: records) description
      = Raise AttributeError).
  { intros description. unfold SchPart.init.
    rewrite header_id_lacks_identity by exact Hlacks. reflexivity. }
  split; [exact Hinit |]. split; [reflexivity |].
  apply (init_Propagate file header Hheader parts cnt); [assumption |].
  rewrite (iteration_reference _ _ _ _ name Href), Hopen, Hinit.
  reflexivity.
Qed.

Lemma missing_identity_aborts_library_witness :
  SchLib.init (library_with anonymous) = Some (Raise AttributeError).
Proof.
  refine (proj2 (proj2 (missing_identity_aborts_library
    (library_with anonymous) two_references ∅ 0 (U "RES")
    (record_of [("RECORD", "1")])
    [Rec (Some (record_of [("RECORD", "34"); ("TEXT", "U?")]))]
    _ _ _ _ _))).
  - vm_compute; reflexivity.
  - constructor.
  - exists (B "RES"). split; [vm_compute; reflexivity |].
    split; [discriminate | vm_compute; reflexivity].
  - vm_compute; reflexivity.
  - split; vm_compute; reflexivity.
Defined.

(** C1 as stated fails: the first part of [library_with anonymous] has
    no identity field, and the library is not produced with one entry
    fewer than [library_with resistor]; it is not produced at all. *)
Lemma missing_identity_not_skipped :
  (exists part_header records,
     openstream (library_with anonymous) [U "RES"; U "Data"]
       = Ok (Rec (Some part_header) :: records) /\
     lacks_identity part_header) /\
  (exists parts,
     SchLib.init (library_with resistor) = Some (Ok parts) /\
     size parts = 2%nat) /\
  ~ exists parts, SchLib.init (library_with anonymous) = Some (Ok parts).
Proof.
  split; [| split].
  - eexists _, _. split; [vm_compute; reflexivity |].
    split; vm_compute; reflexivity.
  - eexists. split; vm_compute; reflexivity.
  - intros [parts Hparts]. vm_compute in Hparts. discriminate.
Qed.

(** C2, amended: when the container has no stream at
    [[libref, 'Data']] for a discovered reference, [openstream] raises
    its not-found error before the [try] statement is entered, so the
    error is not caught: the construction of the library fails with it,
    the entry is not skipped and no later index is visited. *)
Theorem missing_stream_aborts_library (file : OleFileIO)
    (header : gmap (list N) (list byte)) (parts : gmap (list N) SchPart.t)
    (cnt : nat) (name : list N) :
  SchLib.read_header file = Ok header ->
  reaches file header parts cnt ->
  reference header cnt name ->
  streams file !! [name; U "Data"] = None ->
  SchLib.iteration file header parts cnt = SchLib.Propagate NotFoundError
  /\ SchLib.init file = Some (Raise NotFoundError).
Proof.
  intros Hheader Hreach Href Hnone.
  assert (Hit : SchLib.iteration file header parts cnt
                  = SchLib.Propagate NotFoundError).
  { rewrite (iteration_reference _ _ _ _ name Href).
    unfold openstream. rewrite Hnone. reflexivity. }
  split; [exact Hit |].
  apply (init_Propagate file header Hheader parts cnt); assumption.
Qed.

Lemma missing_stream_aborts_library_witness :
  SchLib.init library_without_stream = Some (Raise NotFoundError).
Proof.
  refine (proj2 (missing_stream_aborts_library
    library_without_stream two_references ∅ 0 (U "RES") _ _ _ _)).
  - vm_compute; reflexivity.
  - constructor.
  - exists (B "RES"). split; [vm_compute; reflexivity |].
    split; [discriminate | vm_compute; reflexivity].
  - vm_compute; reflexivity.
Defined.

(** C2 as stated fails: [library_without_stream] has no stream for its
    first reference and one for its second, and its construction does
    not go on to the second: it fails. *)
Lemma missing_stream_not_skipped :
  reference two_references 0 (U "RES") /\
  streams library_without_stream !! [U "RES"; U "Data"] = None /\
  reference two_references 1 (U "CAP") /\
  is_Some (streams library_without_stream !! [U "CAP"; U "Data"]) /\
  ~ exists parts, SchLib.init library_without_stream = Some (Ok parts).
Proof.
  split; [| split; [| split; [| split]]].
  - exists (B "RES"). split; [vm_compute; reflexivity |].
    split; [discriminate | vm_compute; reflexivity].
  - vm_compute; reflexivity.
  - exists (B "CAP"). split; [vm_compute; reflexivity |].
    split; [discriminate | vm_compute; reflexivity].
  - vm_compute. eauto.
  - intros [parts Hparts]. vm_compute in Hparts. discriminate.
Qed.

(** C3, amended: a record after the header for which the property
    decoder yields [None] is skipped, and the Part is assembled from the
    other records exactly as if that record were not in the stream; an
    error raised by the decoder for such a record is not caught by
    [SchPart.__init__]: it ends the construction when the header and the
    records before it were processed without an error. *)
Theorem none_record_skipped_raised_error_aborts
    (header : option (gmap (list N) (list byte))) (pre post : list item)
    (description : list N) :
  SchPart.init (Rec header :: pre ++ Rec None :: post) description
    = SchPart.init (Rec header :: pre ++ post) description
  /\ (forall e,
        (exists part, SchPart.init (Rec header :: pre) description = Ok part) ->
        SchPart.init (Rec header :: pre ++ Err e :: post) description
          = Raise e).
Proof.
  unfold SchPart.init.
  destruct (SchPart.header_id header) as [id|err]; simpl.
  - split.
    + rewrite !body_app. reflexivity.
    + intros e [part Hpart]. rewrite body_app, Hpart. reflexivity.
  - split; [reflexivity |]. intros e [part Hpart]. discriminate.
Qed.

Lemma none_record_skipped_raised_error_aborts_witness :
  SchPart.init
    (Rec (Some (record_of [("LIBREFERENCE", "RES")]))
       :: [] ++ Err DecodeError
       :: [Rec (Some (record_of [("RECORD", "34"); ("TEXT", "R?")]))]) []
    = Raise DecodeError.
Proof.
  apply (none_record_skipped_raised_error_aborts
           (Some (record_of [("LIBREFERENCE", "RES")])) []).
  eexists. vm_compute. reflexivity.
Defined.

(** C3 as stated fails: the second record of [undecodable] makes the
    decoder raise, and no Part comes out of the stream, though its other
    records are valid. *)
Lemma raised_decode_error_aborts_part :
  undecodable !! 1%nat = Some (Err DecodeError) /\
  (exists part,
     SchPart.init (delete 1%nat undecodable) [] = Ok part /\
     SchPart.id part = U "RES" /\ SchPart.designator part = U "R?") /\
  SchPart.init undecodable [] = Raise DecodeError /\
  ~ exists part, SchPart.init undecodable [] = Ok part.
Proof.
  split; [reflexivity |].
  split; [eexists; repeat split; vm_compute; reflexivity |].
  split; [reflexivity |].
  intros [part Hpart]. vm_compute in Hpart. discriminate.
Qed.

(** C4: for every well-formed library file the number of entries of the
    part table equals the number of contiguous indices [n], from 0,
    whose [LIBREF{n}] is present and not empty; the loop ends with that
    table, not with a failure, at the first index whose [LIBREF{n}] is
    absent or empty. *)
Theorem part_count_is_reference_count (file : OleFileIO)
    (header : gmap (list N) (list byte)) :
  well_formed file header ->
  exists parts : gmap (list N) SchPart.t,
    SchLib.init file = Some (Ok parts) /\
    size parts = contiguous_references header /\
    reaches file header parts (contiguous_references header) /\
    gap header (contiguous_references header) /\
    forall i, (i < contiguous_references header)%nat ->
      exists libref,
        get header (SchLib.LIBREF i) None = Some libref /\ libref <> [].
Proof.
  intros Hwf.
  destruct (well_formed_reaches file header (contiguous_references header)
              Hwf) as (parts & Hreach & Hsize & _); [lia |].
  destruct (contiguous_references_spec header) as [Hbefore Hgap].
  exists parts. split; [| auto].
  destruct Hwf as (Hheader & _).
  eapply init_Break; [exact Hheader | exact Hreach |].
  apply iteration_gap, Hgap.
Qed.

Lemma part_count_is_reference_count_witness :
  exists parts : gmap (list N) SchPart.t,
    SchLib.init (library_with resistor) = Some (Ok parts) /\
    size parts = 2%nat.
Proof.
  destruct (part_count_is_reference_count (library_with resistor)
              two_references) as (parts & Hinit & Hsize & _).
  - split; [vm_compute; reflexivity |].
    rewrite two_references_count. split.
    + intros [|[|cnt]] Hcnt; [| | lia].
      * eexists (U "RES"), _. split.
        -- exists (B "RES"). split; [vm_compute; reflexivity |].
           split; [discriminate | vm_compute; reflexivity].
        -- exists resistor. split; vm_compute; reflexivity.
      * eexists (U "CAP"), _. split.
        -- exists (B "CAP"). split; [vm_compute; reflexivity |].
           split; [discriminate | vm_compute; reflexivity].
        -- exists capacitor. split; vm_compute; reflexivity.
    + intros i j name Hi Hj Hri Hrj.
      apply reference_two_references in Hri, Hrj.
      destruct Hri as [[-> ->] | [[-> ->] | Hri]];
        destruct Hrj as [[-> Hn] | [[-> Hn] | Hrj]];
        try reflexivity; try lia; discriminate.
  - exists parts. split; [exact Hinit |].
    rewrite Hsize. apply two_references_count.
Defined.



(** C6: when a part stream has two kind-41 records with the same [NAME]
    and different [TEXT]s, the properties of the assembled Part map the
    name to the [TEXT] of the later one (the last occurrence wins); the
    same holds for kind-45 records with the same [MODELNAME] and the
    footprints. *)
Theorem last_occurrence_wins (header : option (gmap (list N) (list byte)))
    (pre mid post : list item) (r1 r2 : gmap (list N) (list byte))
    (description : list N) (part : SchPart.t) (name t1 t2 : list N) :
  SchPart.init
    (Rec header :: pre ++ Rec (Some r1) :: mid ++ Rec (Some r2) :: post)
    description = Ok part ->
  t1 <> t2 ->
  (is_property r1 name t1 -> is_property r2 name t2 ->
   no_record (fun r => names_property r name) post ->
   SchPart.properties part !! name = Some t2)
  /\ (is_footprint r1 name t1 -> is_footprint r2 name t2 ->
      no_record (fun r => names_footprint r name) post ->
      SchPart.footprints part !! name = Some t2).
Proof.
  intros Hinit _. unfold SchPart.init in Hinit.
  destruct (SchPart.header_id header) as [id|]; [| discriminate].
  simpl in Hinit.
  change (Rec (Some r1) :: mid ++ Rec (Some r2) :: post)
    with ((Rec (Some r1) :: mid) ++ Rec (Some r2) :: post) in Hinit.
  rewrite app_assoc in Hinit.
  split; intros _ H2 Hpost.
  - eapply body_last_property; eassumption.
  - eapply body_last_footprint; eassumption.
Qed.

Lemma last_occurrence_wins_witness :
  exists part,
    SchPart.init resistor [] = Ok part /\
    SchPart.properties part !! U "Comment" = Some (U "20k").
Proof.
  eexists. split; [vm_compute; reflexivity |].
  refine (proj1 (last_occurrence_wins
    (Some (record_of [("LIBREFERENCE", "RES")])) []
    [ Rec (Some (record_of [("RECORD", "34"); ("TEXT", "R?")]));
      Rec (Some (record_of [("RECORD", "45"); ("MODELNAME", "0603")])) ] []
    (record_of [("RECORD", "41"); ("NAME", "Comment"); ("TEXT", "10k")])
    (record_of [("RECORD", "41"); ("NAME", "Comment"); ("TEXT", "20k")])
    [] _ (U "Comment") (U "10k") (U "20k") _ _) _ _ _).
  - vm_compute; reflexivity.
  - vm_compute; discriminate.
  - vm_compute; auto.
  - vm_compute; auto.
  - intros record Hin. inversion Hin.
Defined.

(** C7: the construction of the library fails with a format error, and
    no library is produced, unless the first record of the [FileHeader]
    stream has the [HEADER] value ["Protel for Windows - Schematic
    Library Editor Binary File Version 5.0"] and the [MINORVERSION]
    value ["2"]; when both hold the header is accepted. *)
Theorem header_checks_are_fatal (file : OleFileIO)
    (header : gmap (list N) (list byte)) (rest : list item) :
  openstream file [U "FileHeader"] = Ok (Rec (Some header) :: rest) ->
  (get header (U "HEADER") None = Some SchLib.SIGNATURE /\
   get header (U "MINORVERSION") None = Some (B "2") ->
   SchLib.read_header file = Ok header)
  /\ (~ (get header (U "HEADER") None = Some SchLib.SIGNATURE /\
         get header (U "MINORVERSION") None = Some (B "2")) ->
      SchLib.init file = Some (Raise FormatError) /\
      ~ exists parts, SchLib.init file = Some (Ok parts)).
Proof.
  intros Hopen. unfold SchLib.init, SchLib.read_header. rewrite Hopen. simpl.
  destruct (check_cases header (U "HEADER") (Some SchLib.SIGNATURE) None)
    as [[-> (sig & Hsig & Hsig')] | [-> Hsig]]; simpl.
  - destruct (check_cases header (U "MINORVERSION") None (Some (B "2")))
      as [[-> (minor & Hminor & Hminor')] | [-> Hminor]]; simpl.
    + split; [reflexivity |]. intros Hnot. exfalso. apply Hnot.
      rewrite Hsig, Hminor.
      destruct Hsig' as [-> | [=]]. destruct Hminor' as [[=] | ->]. auto.
    + split.
      * intros [_ Hm]. exfalso. apply Hminor. eauto.
      * intros _. split; [reflexivity | intros [parts [=]]].
  - split.
    + intros [Hs _]. exfalso. apply Hsig. eauto.
    + intros _. split; [reflexivity | intros [parts [=]]].
Qed.

Lemma header_checks_are_fatal_witness :
  SchLib.read_header (library_with resistor) = Ok two_references /\
  SchLib.init library_version_3 = Some (Raise FormatError).
Proof.
  split.
  - apply (header_checks_are_fatal (library_with resistor) two_references []).
    + vm_compute; reflexivity.
    + split; vm_compute; reflexivity.
  - apply (header_checks_are_fatal library_version_3
             (<[U "MINORVERSION" := B "3"]> two_references) []).
    + vm_compute; reflexivity.
    + intros [_ Hminor]. vm_compute in Hminor. discriminate.
Defined.

(** C8: whatever the bytes of a header field [COMPDESCR{n}] are, the
    description of the part is their UTF-8 decoding with invalid
    sequences replaced, which never fails, with every newline character
    turned into one space; it is the description of the Part stored for
    the index [n].  The decoded text is the one text that [decoding]
    gives the bytes: the scalar value of every well-formed sequence, and
    one U+FFFD for every invalid sequence. *)
Theorem description_decoded_permissively
    (header : gmap (list N) (list byte)) :
  (forall cnt,
     let field :=
       Byte.to_N <$> default [] (get header (SchLib.COMPDESCR cnt) None) in
     let decoded := utf8_replace field in
     (forall text, decoding field text <-> text = decoded) /\
     SchLib.description header cnt = Ok (description_text header cnt) /\
     Forall scalar decoded /\
     length (description_text header cnt) = length decoded /\
     (forall i,
        description_text header cnt !! i =
          (fun c => if c =? NEWLINE then SPACE else c) <$> decoded !! i) /\
     NEWLINE ∉ description_text header cnt)
  /\ (forall file (parts : gmap (list N) SchPart.t) name part,
        SchLib.read_header file = Ok header ->
        SchLib.init file = Some (Ok parts) ->
        parts !! name = Some part ->
        exists cnt,
          reference header cnt name /\
          SchLib.description header cnt = Ok (SchPart.desc part)).
Proof.
  split.
  - intros cnt field decoded.
    split; [intros text; split;
            [apply decoding_unique | intros ->; apply utf8_replace_decoding] |].
    split; [apply description_Ok |].
    split; [apply utf8_replace_scalar |].
    split; [apply length_fmap |].
    split; [intros i; apply replace_newline_lookup |].
    apply replace_newline_no_newline.
  - intros file parts name part Hheader Hinit Hpart.
    destruct (init_Ok_reaches _ _ Hheader _ Hinit) as (k & Hreach & _).
    destruct (reaches_descriptions _ _ _ _ Hreach name part Hpart)
      as (cnt & _ & Href & stream & _ & Hstream).
    exists cnt. split; [exact Href |].
    rewrite (init_desc _ _ _ Hstream). apply description_Ok.
Qed.

Lemma description_decoded_permissively_witness :
  exists (parts : gmap (list N) SchPart.t) part,
    SchLib.init library_damaged = Some (Ok parts) /\
    parts !! U "RES" = Some part /\
    SchPart.desc part
      = U "caf" ++ [REPLACEMENT; SPACE] ++ U "10" ++ [REPLACEMENT] ++ U "k" /\
    Byte.to_N <$> default [] (get header_damaged (SchLib.COMPDESCR 0) None)
      = [99; 97; 102; 233; 10; 49; 48; 226; 130; 107] /\
    decoding
      (Byte.to_N <$> default [] (get header_damaged (SchLib.COMPDESCR 0) None))
      [99; 97; 102; REPLACEMENT; 10; 49; 48; REPLACEMENT; 107] /\
    exists cnt,
      reference header_damaged cnt (U "RES") /\
      SchLib.description header_damaged cnt = Ok (SchPart.desc part).
Proof.
  eexists _, _. split; [vm_compute; reflexivity |].
  split; [vm_compute; reflexivity |].
  split; [vm_compute; reflexivity |].
  split; [vm_compute; reflexivity |].
  split.
  - destruct (proj1 (description_decoded_permissively header_damaged) 0%nat)
      as [Hdecoding _].
    apply (proj2 (Hdecoding _)). vm_compute; reflexivity.
  - eapply (proj2 (description_decoded_permissively header_damaged)
              library_damaged);
      vm_compute; reflexivity.
Defined.

(** C9, amended: when [SchPart.__init__] arrives at the ASCII decoding
    of a field (the identity field, the [NAME] or [TEXT] of a kind-41
    record, the [TEXT] of a kind-34 record, the [MODELNAME] or
    [DESCRIPTION] of a kind-45 record) that has a byte of 0x80 or above,
    the construction of the Part fails with a [UnicodeDecodeError]; the
    [except ValueError] clause of the library takes it as a failed
    construction: the part table is left as it was and the loop goes on
    to the next index.  It arrives there when the header and the records
    before were processed without an error and, for a [TEXT] of kind 41
    or a [DESCRIPTION] of kind 45, the [NAME] or [MODELNAME] of the same
    record is present and ASCII. *)
Theorem non_ascii_field_drops_part (file : OleFileIO)
    (header : gmap (list N) (list byte)) (parts : gmap (list N) SchPart.t)
    (cnt : nat) (name : list N) (stream : list item) :
  SchLib.read_header file = Ok header ->
  reaches file header parts cnt ->
  reference header cnt name ->
  openstream file [name; U "Data"] = Ok stream ->
  reads_non_ascii (description_text header cnt) stream ->
  SchPart.init stream (description_text header cnt) = Raise UnicodeDecodeError
  /\ is_ValueError UnicodeDecodeError = true
  /\ SchLib.iteration file header parts cnt = SchLib.Continue parts
  /\ reaches file header parts (S cnt)
  /\ exists fuel,
       SchLib.init file = SchLib.discover (S fuel) file header parts (S cnt).
Proof.
  intros Hheader Hreach Href Hopen Hreads.
  pose proof (init_reads_non_ascii _ _ Hreads) as Hinit.
  assert (Hit : SchLib.iteration file header parts cnt
                  = SchLib.Continue parts).
  { rewrite (iteration_reference _ _ _ _ name Href), Hopen, Hinit.
    reflexivity. }
  assert (Hnext : reaches file header parts (S cnt))
    by (eapply reaches_next; eassumption).
  split; [exact Hinit |]. split; [reflexivity |]. split; [exact Hit |].
  split; [exact Hnext |].
  apply init_reaches; assumption.
Qed.

Lemma non_ascii_field_drops_part_witness :
  SchPart.init latin1 (description_text two_references 0)
    = Raise UnicodeDecodeError
  /\ reaches (library_with latin1) two_references ∅ 1
  /\ exists parts,
       SchLib.init (library_with latin1) = Some (Ok parts) /\
       parts !! U "RES" = None /\ is_Some (parts !! U "CAP").
Proof.
  destruct (non_ascii_field_drops_part (library_with latin1) two_references
              ∅ 0 (U "RES") latin1) as (Hinit & _ & _ & Hnext & _).
  - vm_compute; reflexivity.
  - constructor.
  - exists (B "RES"). split; [vm_compute; reflexivity |].
    split; [discriminate | vm_compute; reflexivity].
  - vm_compute; reflexivity.
  - apply (reads_field _ (record_of [("LIBREFERENCE", "RES")]) (U "RES") []
             (SchPart.mk (U "RES") (description_text two_references 0) [] ∅ ∅)
             (<[U "TEXT" := [xe9]]> (record_of [("RECORD", "34")])) []).
    + vm_compute; reflexivity.
    + reflexivity.
    + apply (designator_text _ [xe9]).
      * vm_compute; reflexivity.
      * vm_compute; reflexivity.
      * apply Exists_cons_hd. vm_compute. discriminate.
  - split; [exact Hinit |]. split; [exact Hnext |].
    eexists. split; [vm_compute; reflexivity |].
    split; [vm_compute; reflexivity | vm_compute; eauto].
Defined.

(** C9 as stated fails: a field with a byte of 0x80 or above that the
    construction does not arrive at drops nothing.  The kind-41 record of
    [nameless_latin1] has such a [TEXT] and no [NAME]: the decoding of
    the missing [NAME] raises [AttributeError] first.  The kind-41 record
    of [latin1_after_designator] has such a [NAME], after a kind-34
    record without [TEXT], whose decoding raises [AttributeError].
    Neither error is a [ValueError]: the library is not produced. *)
Lemma non_ascii_field_not_reached :
  (exists record text,
     nameless_latin1 !! 1%nat = Some (Rec (Some record)) /\
     get_int record (U "RECORD") = Ok 41%Z /\
     get record (U "TEXT") None = Some text /\ non_ascii text) /\
  SchPart.init nameless_latin1 (description_text two_references 0)
    = Raise AttributeError /\
  SchLib.init (library_with nameless_latin1) = Some (Raise AttributeError) /\
  (exists record name,
     latin1_after_designator !! 2%nat = Some (Rec (Some record)) /\
     get_int record (U "RECORD") = Ok 41%Z /\
     get record (U "NAME") None = Some name /\ non_ascii name) /\
  SchPart.init latin1_after_designator (description_text two_references 0)
    = Raise AttributeError /\
  SchLib.init (library_with latin1_after_designator)
    = Some (Raise AttributeError) /\
  is_ValueError AttributeError = false /\
  ~ reads_non_ascii (description_text two_references 0) nameless_latin1.
Proof.
  split.
  { eexists _, _. split; [reflexivity |].
    split; [vm_compute; reflexivity |].
    split; [vm_compute; reflexivity |].
    apply Exists_cons_hd. vm_compute. discriminate. }
  split; [vm_compute; reflexivity |].
  split; [vm_compute; reflexivity |].
  split.
  { eexists _, _. split; [reflexivity |].
    split; [vm_compute; reflexivity |].
    split; [vm_compute; reflexivity |].
    apply Exists_cons_hd. vm_compute. discriminate. }
  split; [vm_compute; reflexivity |].
  split; [vm_compute; reflexivity |].
  split; [reflexivity |].
  intros Hreads. apply init_reads_non_ascii in Hreads.
  vm_compute in Hreads. discriminate.
Qed.

(** C10: for every Part whose properties map has a key equal to ['id'],
    ['designator'] or ['description'], the row returned by [params()]
    carries the value of that property under the key, in place of the
    value of the fixed field: the properties map is merged over the
    fixed fields, which show only under the keys the map does not have. *)
Theorem params_property_replaces_fixed (self : SchPart.t) (k : list N) :
  k = U "id" \/ k = U "designator" \/ k = U "description" ->
  (forall v, SchPart.properties self !! k = Some v ->
     SchPart.params self !! k = Some v)
  /\ (SchPart.properties self !! k = None ->
      SchPart.params self !! k =
        Some (if decide (k = U "id") then SchPart.id self
              else if decide (k = U "designator") then SchPart.designator self
              else SchPart.desc self)).
Proof.
  intros Hk. split.
  - intros v. apply params_lookup_property.
  - intros Hnone. rewrite params_lookup_fixed by exact Hnone.
    destruct Hk as [-> | [-> | ->]]; reflexivity.
Qed.

Lemma params_property_replaces_fixed_witness :
  exists self,
    SchPart.init capacitor [] = Ok self /\
    SchPart.id self = U "C-0805" /\
    SchPart.params self !! U "id" = Some (U "override") /\
    SchPart.params self !! U "designator" = Some (U "C?").
Proof.
  eexists. split; [vm_compute; reflexivity |].
  split; [vm_compute; reflexivity |]. split.
  - apply (proj1 (params_property_replaces_fixed _ (U "id")
                    (or_introl eq_refl))).
    vm_compute; reflexivity.
  - rewrite (proj2 (params_property_replaces_fixed _ (U "designator")
                      (or_intror (or_introl eq_refl))))
      by (vm_compute; reflexivity).
    vm_compute; reflexivity.
Defined.

(** * Further properties of [SchPart] and [SchLib] *)

(** ** The fields of an assembled Part *)

Lemma decode_ascii_Ok_inv (b : list byte) (s : list N) :
  decode_ascii b = Ok s -> s = Byte.to_N <$> b /\ ~ non_ascii b.
Proof.
  intros Hdec. split.
  - unfold decode_ascii in Hdec.
    destruct (forallb _ b); [injection Hdec as <-; reflexivity | discriminate].
  - intros Hb. rewrite (decode_ascii_non_ascii b Hb) in Hdec. discriminate.
Qed.

Lemma header_id_identity_field (header : gmap (list N) (list byte)) :
  SchPart.header_id (Some header) = decode (identity_field header).
Proof.
  unfold SchPart.header_id, identity_field.
  destruct (get header (U "DESIGNITEMID") None); reflexivity.
Qed.

(** X1: the identity of an assembled Part is the ASCII decoding of the
    header's [DESIGNITEMID] when the header has one, and of its
    [LIBREFERENCE] otherwise, and its description is the one the caller
    gave; no record after the header changes either of them. *)
Theorem identity_and_description_from_header
    (header : gmap (list N) (list byte)) (records : list item)
    (description : list N) (part : SchPart.t) :
  SchPart.init (Rec (Some header) :: records) description = Ok part ->
  SchPart.desc part = description /\
  exists v,
    identity_field header = Some v /\
    (forall d, get header (U "DESIGNITEMID") None = Some d -> v = d) /\
    (get header (U "DESIGNITEMID") None = None ->
     get header (U "LIBREFERENCE") None = Some v) /\
    ~ non_ascii v /\
    SchPart.id part = Byte.to_N <$> v.
Proof.
  intros Hinit. split; [exact (init_desc _ _ _ Hinit) |].
  unfold SchPart.init in Hinit. rewrite header_id_identity_field in Hinit.
  destruct (identity_field header) as [v|] eqn:Hfield; [| discriminate].
  simpl in Hinit.
  destruct (decode_ascii v) as [id|] eqn:Hdec; [| discriminate].
  simpl in Hinit. apply body_id_desc in Hinit as [Hid _]. simpl in Hid.
  apply decode_ascii_Ok_inv in Hdec as [-> Hascii].
  exists v. split; [reflexivity |]. unfold identity_field in Hfield.
  split; [| split; [| split; [exact Hascii | exact Hid]]].
  - intros d Hd. rewrite Hd in Hfield. congruence.
  - intros Hnone. rewrite Hnone in Hfield. exact Hfield.
Qed.

Lemma identity_and_description_from_header_witness :
  exists part,
    SchPart.init capacitor (U "a capacitor") = Ok part /\
    SchPart.desc part = U "a capacitor" /\
    SchPart.id part = U "C-0805".
Proof.
  eexists. split; [vm_compute; reflexivity |].
  destruct (identity_and_description_from_header
              (record_of [("DESIGNITEMID", "C-0805"); ("LIBREFERENCE", "CAP")])
              [ Rec (Some (record_of [("RECORD", "34"); ("TEXT", "C?")]));
                Rec (Some (record_of [("RECORD", "41"); ("NAME", "id");
                                      ("TEXT", "override")])) ]
              (U "a capacitor") _ eq_refl)
    as (Hdesc & v & Hfield & _ & _ & _ & Hid).
  split; [exact Hdesc |].
  vm_compute in Hfield. injection Hfield as <-. exact Hid.
Defined.

Lemma body_keeps_designator (records : list item) (self self' : SchPart.t) :
  SchPart.body self records = Ok self' ->
  no_record names_designator records ->
  SchPart.designator self' = SchPart.designator self.
Proof.
  revert self. induction records as [|[[record|]|e] l IH]; intros self; simpl.
  - intros [= <-] _. reflexivity.
  - destruct (SchPart.dispatch self record) as [s|] eqn:Hd; [| discriminate].
    simpl. intros H Hno. rewrite (IH s H).
    + assert (Hrec : ~ names_designator record) by (apply Hno; left).
      apply dispatch_inv in Hd
        as [(?&?&_&->)|[(?&Hk&_&->)|[(?&?&_&->)|[_ ->]]]];
        try reflexivity.
      contradiction.
    + intros r Hr. apply Hno. right. exact Hr.
  - intros H Hno. apply IH; [exact H |].
    intros r Hr. apply Hno. right. exact Hr.
  - discriminate.
Qed.

(** X2: the designator of an assembled Part is the [TEXT] of the last
    kind-34 record of its stream, and the empty string when the stream
    has no kind-34 record. *)
Theorem designator_is_last_designator_record
    (header : option (gmap (list N) (list byte))) (records : list item)
    (description : list N) (part : SchPart.t) :
  SchPart.init (Rec header :: records) description = Ok part ->
  (no_record names_designator records -> SchPart.designator part = [])
  /\ (forall pre record post text,
        records = pre ++ Rec (Some record) :: post ->
        is_designator record text ->
        no_record names_designator post ->
        SchPart.designator part = text).
Proof.
  unfold SchPart.init.
  destruct (SchPart.header_id header) as [id|]; [| discriminate]. simpl.
  intros Hbody. split.
  - intros Hno. apply (body_keeps_designator _ _ _ Hbody Hno).
  - intros pre record post text -> [Hk Htext] Hno.
    rewrite body_app in Hbody.
    destruct (SchPart.body _ pre) as [self|]; [| discriminate].
    simpl in Hbody. rewrite dispatch_designator, Htext in Hbody by exact Hk.
    simpl in Hbody. apply (body_keeps_designator _ _ _ Hbody Hno).
Qed.

Lemma designator_is_last_designator_record_witness :
  exists part,
    SchPart.init resistor [] = Ok part /\ SchPart.designator part = U "R?".
Proof.
  eexists. split; [vm_compute; reflexivity |].
  refine (proj2 (designator_is_last_designator_record
    (Some (record_of [("LIBREFERENCE", "RES")])) (tail resistor) [] _ eq_refl)
    [Rec (Some (record_of [("RECORD", "41"); ("NAME", "Comment");
                           ("TEXT", "10k")]))]
    (record_of [("RECORD", "34"); ("TEXT", "R?")])
    [ Rec (Some (record_of [("RECORD", "45"); ("MODELNAME", "0603")]));
      Rec (Some (record_of [("RECORD", "41"); ("NAME", "Comment");
                            ("TEXT", "20k")])) ]
    (U "R?") eq_refl _ _).
  - split; vm_compute; reflexivity.
  - intros record Hin Hk. unfold names_designator in Hk.
    apply elem_of_cons in Hin as [[= ->] | Hin];
      [vm_compute in Hk; discriminate |].
    apply elem_of_cons in Hin as [[= ->] | Hin];
      [vm_compute in Hk; discriminate |].
    inversion Hin.
Defined.

(** X3: a name that no kind-41 record of the stream carries is not a key
    of the properties of the assembled Part, and a model name that no
    kind-45 record carries is not a key of its footprints: nothing but
    these records fills the two maps. *)
Theorem maps_hold_only_record_names
    (header : option (gmap (list N) (list byte))) (records : list item)
    (description : list N) (part : SchPart.t) (name : list N) :
  SchPart.init (Rec header :: records) description = Ok part ->
  (no_record (fun r => names_property r name) records ->
   SchPart.properties part !! name = None)
  /\ (no_record (fun r => names_footprint r name) records ->
      SchPart.footprints part !! name = None).
Proof.
  unfold SchPart.init.
  destruct (SchPart.header_id header) as [id|]; [| discriminate]. simpl.
  intros Hbody. split; intros Hno.
  - rewrite (body_keeps_property name _ _ _ Hbody Hno). apply lookup_empty.
  - rewrite (body_keeps_footprint name _ _ _ Hbody Hno). apply lookup_empty.
Qed.

Lemma maps_hold_only_record_names_witness :
  exists part,
    SchPart.init anonymous_free [] = Ok part /\
    SchPart.properties part !! U "Comment" = None.
Proof.
  eexists. split; [vm_compute; reflexivity |].
  refine (proj1 (maps_hold_only_record_names
    (Some (record_of [("LIBREFERENCE", "CAP")]))
    [Rec (Some (record_of [("RECORD", "34"); ("TEXT", "Comment")]))]
    [] _ (U "Comment") eq_refl) _).
  intros record Hin [Hk _].
  apply elem_of_cons in Hin as [[= ->] | Hin];
    [vm_compute in Hk; discriminate | inversion Hin].
Defined.

(** X4: a record whose [RECORD] is an integer other than 41, 34 and 45
    can be taken out of the stream without any change to the outcome of
    [SchPart.__init__]. *)
Theorem ignored_record_can_be_removed
    (header : option (gmap (list N) (list byte))) (pre post : list item)
    (record : gmap (list N) (list byte)) (k : Z) (description : list N) :
  get_int record (U "RECORD") = Ok k ->
  k <> 41%Z -> k <> 34%Z -> k <> 45%Z ->
  SchPart.init (Rec header :: pre ++ Rec (Some record) :: post) description
    = SchPart.init (Rec header :: pre ++ post) description.
Proof.
  intros Hk H41 H34 H45. unfold SchPart.init.
  destruct (SchPart.header_id header) as [id|]; [| reflexivity]. simpl.
  rewrite !body_app.
  destruct (SchPart.body _ pre) as [self|]; [| reflexivity]. simpl.
  rewrite (dispatch_other self record k Hk H41 H34 H45). reflexivity.
Qed.

Lemma ignored_record_can_be_removed_witness :
  SchPart.init
    (Rec (Some (record_of [("LIBREFERENCE", "RES")]))
       :: [] ++ Rec (Some (record_of [("RECORD", "1"); ("TEXT", "pin")]))
       :: [Rec (Some (record_of [("RECORD", "34"); ("TEXT", "R?")]))]) []
  = SchPart.init
      (Rec (Some (record_of [("LIBREFERENCE", "RES")]))
         :: [] ++ [Rec (Some (record_of [("RECORD", "34"); ("TEXT", "R?")]))])
      [].
Proof.
  apply (ignored_record_can_be_removed _ [] _ _ 1);
    [vm_compute; reflexivity | discriminate ..].
Defined.

(** X5: a kind-41 record without [NAME], or a kind-45 record without
    [MODELNAME], ends the construction of the Part with an
    [AttributeError], whether or not it has a [TEXT] or a [DESCRIPTION],
    when the header and the records before it were processed without an
    error. *)
Theorem missing_name_aborts_part
    (header : option (gmap (list N) (list byte))) (pre post : list item)
    (record : gmap (list N) (list byte)) (description : list N) :
  (exists part, SchPart.init (Rec header :: pre) description = Ok part) ->
  lacks_name record ->
  SchPart.init (Rec header :: pre ++ Rec (Some record) :: post) description
    = Raise AttributeError.
Proof.
  intros [part Hpart] Hlacks. unfold SchPart.init in *.
  destruct (SchPart.header_id header) as [id|]; [| discriminate].
  simpl in *. rewrite body_app, Hpart. simpl.
  destruct Hlacks as [[Hk Hname] | [Hk Hname]].
  - rewrite dispatch_property, Hname by exact Hk. reflexivity.
  - rewrite dispatch_footprint, Hname by exact Hk. reflexivity.
Qed.

Lemma missing_name_aborts_part_witness :
  SchPart.init
    (Rec (Some (record_of [("LIBREFERENCE", "RES")]))
       :: [] ++ Rec (Some (record_of [("RECORD", "41"); ("TEXT", "10k")]))
       :: []) []
  = Raise AttributeError.
Proof.
  apply missing_name_aborts_part.
  - eexists. vm_compute. reflexivity.
  - left. split; vm_compute; reflexivity.
Defined.

(** ** Failures inside the discovery loop *)

(** X6: when the construction of the Part of a discovered reference
    raises an exception, the library skips that reference and goes on to
    the next index if the exception is a [ValueError], and otherwise its
    own construction fails with that exception. *)
Theorem part_failure_skipped_or_fatal (file : OleFileIO)
    (header : gmap (list N) (list byte)) (parts : gmap (list N) SchPart.t)
    (cnt : nat) (name : list N) (stream : list item) (e : exn) :
  SchLib.read_header file = Ok header ->
  reaches file header parts cnt ->
  reference header cnt name ->
  openstream file [name; U "Data"] = Ok stream ->
  SchPart.init stream (description_text header cnt) = Raise e ->
  (is_ValueError e = true ->
     SchLib.iteration file header parts cnt = SchLib.Continue parts /\
     reaches file header parts (S cnt))
  /\ (is_ValueError e = false -> SchLib.init file = Some (Raise e)).
Proof.
  intros Hheader Hreach Href Hopen Hinit.
  pose proof (iteration_reference file header parts cnt name Href) as Hit.
  rewrite Hopen, Hinit in Hit. split; intros He; rewrite He in Hit.
  - split; [exact Hit |]. eapply reaches_next; eassumption.
  - apply (init_Propagate file header Hheader parts cnt); assumption.
Qed.

(** A part data stream without any record: [next(records)] raises
    [StopIteration], and the library fails with it. *)
Lemma part_failure_skipped_or_fatal_witness :
  SchLib.init (library_with []) = Some (Raise StopIteration).
Proof.
  refine (proj2 (part_failure_skipped_or_fatal (library_with [])
    two_references ∅ 0 (U "RES") [] StopIteration _ _ _ _ _) eq_refl).
  - vm_compute; reflexivity.
  - constructor.
  - exists (B "RES"). split; [vm_compute; reflexivity |].
    split; [discriminate | vm_compute; reflexivity].
  - vm_compute; reflexivity.
  - reflexivity.
Defined.

(** X7: a reference [LIBREF{n}] with a byte of 0x80 or above makes the
    construction of the library fail with a [UnicodeDecodeError]: the
    reference is decoded before the [try] statement, so this
    [ValueError] is not caught. *)
Theorem non_ascii_reference_aborts_library (file : OleFileIO)
    (header : gmap (list N) (list byte)) (parts : gmap (list N) SchPart.t)
    (cnt : nat) (libref : list byte) :
  SchLib.read_header file = Ok header ->
  reaches file header parts cnt ->
  get header (SchLib.LIBREF cnt) None = Some libref ->
  non_ascii libref ->
  is_ValueError UnicodeDecodeError = true /\
  SchLib.init file = Some (Raise UnicodeDecodeError).
Proof.
  intros Hheader Hreach Hget Hna. split; [reflexivity |].
  apply (init_Propagate file header Hheader parts cnt); [exact Hreach |].
  unfold SchLib.iteration. rewrite description_Ok, Hget.
  destruct libref as [|c libref]; [inversion Hna |].
  rewrite (decode_ascii_non_ascii _ Hna). reflexivity.
Qed.

Lemma non_ascii_reference_aborts_library_witness :
  SchLib.init library_latin1_reference = Some (Raise UnicodeDecodeError).
Proof.
  refine (proj2 (non_ascii_reference_aborts_library library_latin1_reference
    (<[U "LIBREF0" := [xe9]]> two_references) ∅ 0 [xe9] _ _ _ _)).
  - vm_compute; reflexivity.
  - constructor.
  - vm_compute; reflexivity.
  - apply Exists_cons_hd. vm_compute. discriminate.
Defined.

(** ** What the part table holds *)

Lemma reference_not_gap (header : gmap (list N) (list byte)) (cnt : nat)
    (name : list N) :
  reference header cnt name -> ~ gap header cnt.
Proof.
  intros (libref & Hget & Hne & _) [Hgap | Hgap]; rewrite Hget in Hgap;
    congruence.
Qed.

Lemma reference_functional (header : gmap (list N) (list byte)) (cnt : nat)
    (name name' : list N) :
  reference header cnt name -> reference header cnt name' -> name = name'.
Proof.
  intros (libref & Hget & _ & Hdec) (libref' & Hget' & _ & Hdec').
  congruence.
Qed.

Lemma part_at_functional (file : OleFileIO)
    (header : gmap (list N) (list byte)) (cnt : nat) (name name' : list N)
    (part part' : SchPart.t) :
  part_at file header cnt name part ->
  part_at file header cnt name' part' ->
  name = name' /\ part = part'.
Proof.
  intros (Href & stream & Hopen & Hinit) (Href' & stream' & Hopen' & Hinit').
  pose proof (reference_functional _ _ _ _ Href Href') as <-.
  split; [reflexivity | congruence].
Qed.

(** A round that continues either stores the part of its index or
    leaves the table alone because no part could be built for it. *)
Lemma iteration_Continue_cases (file : OleFileIO)
    (header : gmap (list N) (list byte))
    (parts parts' : gmap (list N) SchPart.t) (cnt : nat) :
  SchLib.iteration file header parts cnt = SchLib.Continue parts' ->
  (exists name part,
     part_at file header cnt name part /\ parts' = <[name := part]> parts)
  \/ (parts' = parts /\
      (exists name, reference header cnt name) /\
      forall name part, ~ part_at file header cnt name part).
Proof.
  intros Hit.
  destruct (iteration_Continue_inv _ _ _ _ _ Hit) as (name & Href & _).
  rewrite (iteration_reference _ _ _ _ name Href) in Hit.
  destruct (openstream file [name; U "Data"]) as [stream|] eqn:Hopen;
    [| discriminate].
  destruct (SchPart.init stream (description_text header cnt))
    as [part|e] eqn:Hinit.
  - injection Hit as <-. left. exists name, part.
    split; [| reflexivity]. split; [exact Href |]. exists stream. auto.
  - destruct (is_ValueError e); [| discriminate]. injection Hit as <-.
    right. split; [reflexivity |]. split; [eauto |].
    intros name' part' (Href' & stream' & Hopen' & Hinit').
    pose proof (reference_functional _ _ _ _ Href Href') as <-.
    congruence.
Qed.

Section Table.

Context (file : OleFileIO) (header : gmap (list N) (list byte)).

Implicit Types (parts : gmap (list N) SchPart.t) (k : nat).

Lemma reaches_references parts k :
  reaches file header parts k ->
  forall i, (i < k)%nat -> exists name, reference header i name.
Proof.
  induction 1 as [|parts parts' k Hreach IH Hit]; intros i Hi; [lia |].
  destruct (decide (i = k)) as [->|Hne]; [| apply IH; lia].
  apply iteration_Continue_inv in Hit as (name & Href & _). eauto.
Qed.

Lemma reaches_gap_first parts k :
  reaches file header parts k -> gap header k ->
  k = contiguous_references header.
Proof.
  intros Hreach Hgap.
  destruct (contiguous_references_spec header) as [Hbefore Hfirst].
  destruct (lt_eq_lt_dec k (contiguous_references header)) as [[Hlt|Heq]|Hgt].
  - destruct (Hbefore k Hlt) as (libref & Hget & Hne).
    destruct Hgap as [Hgap | Hgap]; rewrite Hget in Hgap; congruence.
  - exact Heq.
  - destruct (reaches_references _ _ Hreach _ Hgt) as [name Href].
    destruct (reference_not_gap _ _ _ Href Hfirst).
Qed.

Lemma reaches_size parts k :
  reaches file header parts k -> (size parts <= k)%nat.
Proof.
  induction 1 as [|parts parts' k Hreach IH Hit];
    [rewrite map_size_empty; lia |].
  apply iteration_Continue_cases in Hit
    as [(name & part & _ & ->) | (-> & _)]; [| lia].
  rewrite map_size_insert. destruct (parts !! name); unfold id; lia.
Qed.

Lemma reaches_last parts k :
  reaches file header parts k ->
  forall name part, parts !! name = Some part ->
  exists cnt, (cnt < k)%nat /\ part_at file header cnt name part /\
    forall j part', (cnt < j < k)%nat -> ~ part_at file header j name part'.
Proof.
  induction 1 as [|parts parts' k Hreach IH Hit]; intros name part Hpart.
  - rewrite lookup_empty in Hpart. discriminate.
  - apply iteration_Continue_cases in Hit
      as [(name' & part' & Hat & ->) | (-> & _ & Hnone)].
    + destruct (decide (name' = name)) as [->|Hne].
      * rewrite lookup_insert_eq in Hpart. injection Hpart as <-.
        exists k. split; [lia |]. split; [exact Hat |]. intros j p Hj. lia.
      * rewrite lookup_insert_ne in Hpart by exact Hne.
        destruct (IH name part Hpart) as (cnt & Hcnt & Hat' & Hlast).
        exists cnt. split; [lia |]. split; [exact Hat' |].
        intros j p Hj Hp. destruct (decide (j = k)) as [->|Hjk].
        -- destruct (part_at_functional _ _ _ _ _ _ _ Hat Hp) as [Heq _].
           contradiction.
        -- apply (Hlast j p); [lia | exact Hp].
    + destruct (IH name part Hpart) as (cnt & Hcnt & Hat' & Hlast).
      exists cnt. split; [lia |]. split; [exact Hat' |].
      intros j p Hj Hp. destruct (decide (j = k)) as [->|Hjk].
      * apply (Hnone name p Hp).
      * apply (Hlast j p); [lia | exact Hp].
Qed.

End Table.

(** X8: the discovery loop of [SchLib.__init__] always ends, whatever
    the header holds: a header of [n] keys has a first index, at most
    [n], whose [LIBREF{n}] is absent or empty, and the loop stops there
    at the latest. *)
Theorem discovery_loop_terminates (file : OleFileIO) :
  is_Some (SchLib.init file) /\
  forall header : gmap (list N) (list byte),
    gap header (contiguous_references header) /\
    (contiguous_references header <= size header)%nat.
Proof.
  split; [apply init_total |]. intros header.
  destruct (contiguous_references_spec header) as [Hbefore Hgap].
  split; [exact Hgap |]. apply present_bound. intros n Hn.
  destruct (Hbefore n Hn) as (libref & Hget & _).
  rewrite <- get_LIBREF, Hget. eauto.
Qed.

(** X9: every entry of the part table of a library was built for an
    index below the first one whose [LIBREF{n}] is absent or empty, under
    the reference of that index: a reference after a gap is never
    loaded, and the table has at most as many entries as there are
    contiguous references. *)
Theorem table_within_contiguous_references (file : OleFileIO)
    (header : gmap (list N) (list byte)) (parts : gmap (list N) SchPart.t) :
  SchLib.read_header file = Ok header ->
  SchLib.init file = Some (Ok parts) ->
  (size parts <= contiguous_references header)%nat /\
  forall name part, parts !! name = Some part ->
    exists cnt, (cnt < contiguous_references header)%nat /\
                part_at file header cnt name part.
Proof.
  intros Hheader Hinit.
  destruct (init_Ok_reaches _ _ Hheader _ Hinit) as (k & Hreach & Hgap).
  rewrite <- (reaches_gap_first _ _ _ _ Hreach Hgap).
  split; [apply (reaches_size _ _ _ _ Hreach) |].
  intros name part Hpart.
  destruct (reaches_last _ _ _ _ Hreach name part Hpart)
    as (cnt & Hcnt & Hat & _).
  eauto.
Qed.

Lemma table_within_contiguous_references_witness :
  exists parts : gmap (list N) SchPart.t,
    SchLib.init library_with_gap = Some (Ok parts) /\
    (size parts <= 1)%nat /\ parts !! U "CAP" = None.
Proof.
  eexists. split; [vm_compute; reflexivity |].
  split; [| vm_compute; reflexivity].
  eapply Nat.le_trans;
    [eapply (table_within_contiguous_references library_with_gap
               header_with_gap); vm_compute; reflexivity |].
  vm_compute. constructor.
Defined.

(** X10: when several indices carry the same reference, the part table
    keeps under it the Part of the last of them whose construction
    succeeded: an entry of the table was built for an index after which
    no index with that reference yields a Part. *)
Theorem later_duplicate_reference_wins (file : OleFileIO)
    (header : gmap (list N) (list byte)) (parts : gmap (list N) SchPart.t)
    (name : list N) (part : SchPart.t) :
  SchLib.read_header file = Ok header ->
  SchLib.init file = Some (Ok parts) ->
  parts !! name = Some part ->
  exists cnt,
    (cnt < contiguous_references header)%nat /\
    part_at file header cnt name part /\
    forall j part',
      (cnt < j < contiguous_references header)%nat ->
      ~ part_at file header j name part'.
Proof.
  intros Hheader Hinit Hpart.
  destruct (init_Ok_reaches _ _ Hheader _ Hinit) as (k & Hreach & Hgap).
  rewrite <- (reaches_gap_first _ _ _ _ Hreach Hgap).
  apply (reaches_last _ _ _ _ Hreach name part Hpart).
Qed.

Lemma later_duplicate_reference_wins_witness :
  exists (parts : gmap (list N) SchPart.t) part,
    SchLib.init library_duplicate = Some (Ok parts) /\
    size parts = 1%nat /\
    parts !! U "RES" = Some part /\
    SchPart.desc part = U "second" /\
    exists cnt,
      (cnt < contiguous_references header_duplicate)%nat /\
      part_at library_duplicate header_duplicate cnt (U "RES") part /\
      forall j part',
        (cnt < j < contiguous_references header_duplicate)%nat ->
        ~ part_at library_duplicate header_duplicate j (U "RES") part'.
Proof.
  eexists _, _. split; [vm_compute; reflexivity |].
  split; [vm_compute; reflexivity |].
  split; [vm_compute; reflexivity |].
  split; [vm_compute; reflexivity |].
  eapply (later_duplicate_reference_wins library_duplicate header_duplicate);
    vm_compute; reflexivity.
Defined.

(** ** The exported row *)

(** X11: the keys of the row returned by [params()] are ['id'],
    ['designator'], ['description'] and the keys of the properties map,
    and nothing else: the three fixed columns are always there, and the
    footprints never are. *)
Theorem params_keys (self : SchPart.t) :
  dom (SchPart.params self) =
    dom (SchPart.properties self)
      ∪ {[ U "id"; U "designator"; U "description" ]}.
Proof.
  unfold SchPart.params.
  rewrite dom_union_L, !dom_insert_L, dom_empty_L. set_solver.
Qed.

(** ** Well-formed UTF-8 *)

(** X12: when the bytes of [COMPDESCR{n}] are the UTF-8 encoding of a
    text, the description is exactly that text with every newline
    replaced by a space: the permissive decoding puts a replacement
    character nowhere in well-formed input. *)
Theorem well_formed_description_is_kept
    (header : gmap (list N) (list byte)) (cnt : nat) (v : list byte)
    (text : list N) :
  get header (SchLib.COMPDESCR cnt) None = Some v ->
  Forall scalar text ->
  Byte.to_N <$> v = utf8_encode_text text ->
  SchLib.description header cnt = Ok (replace_newline text).
Proof.
  intros Hget Htext Hv. rewrite description_Ok. unfold description_text.
  rewrite Hget. simpl. rewrite Hv, utf8_replace_encode_text by exact Htext.
  reflexivity.
Qed.

Lemma well_formed_description_is_kept_witness :
  SchLib.description header_omega 0
    = Ok (U "10 k" ++ [937; SPACE] ++ U "1%").
Proof.
  apply (well_formed_description_is_kept header_omega 0
           (B "10 k" ++ [xce; xa9; x0a] ++ B "1%")
           (U "10 k" ++ [937; NEWLINE] ++ U "1%")).
  - vm_compute; reflexivity.
  - change (Forall scalar [49; 48; 32; 107; 937; 10; 49; 37]).
    repeat first [apply List.Forall_nil
                 | apply List.Forall_cons; [unfold scalar; lia |]].
  - vm_compute; reflexivity.
Defined.

(** * Properties of [LibPkg] *)

Section Package.

Context (os : Runtime.t) (dir : list N).

Implicit Types (doc : gmap (list N) (outcome (list N)))
  (documents pre post : list (gmap (list N) (outcome (list N))))
  (schlibs : gmap (list N) (gmap (list N) SchPart.t))
  (stdout : list (list N)).

Lemma SchLib_of_total (path : list N) : is_Some (SchLib_of os path).
Proof.
  unfold SchLib_of. destruct (Runtime.OleFileIO os path) as [file|e];
    [| eauto].
  destruct (init_total file) as [[parts|e] ->]; eauto.
Qed.

Lemma load_app pre post schlibs stdout :
  LibPkg.load os dir (pre ++ post) schlibs stdout =
    match LibPkg.load os dir pre schlibs stdout with
    | (stdout', Some (Return schlibs')) =>
      LibPkg.load os dir post schlibs' stdout'
    | failed => failed
    end.
Proof.
  revert schlibs stdout. induction pre as [|doc pre IH];
    intros schlibs stdout; simpl; [reflexivity |].
  destruct (option_of doc (U "documentpath")) as [documentpath|e];
    [| reflexivity].
  destruct (LibPkg.is_schlib os _); [| apply IH].
  destruct (SchLib_of os _) as [[parts|e]|]; [apply IH | reflexivity ..].
Qed.

(** What one round of the loop does with a document that it opens, and
    with one that it does not. *)
Lemma load_opened doc documents schlibs stdout (path key : list N) :
  opened os dir doc = Some path -> stored_as os dir doc = Some key ->
  LibPkg.load os dir (doc :: documents) schlibs stdout =
    match SchLib_of os path with
    | None => (stdout ++ [path], None)
    | Some (Throw e) => (stdout ++ [path], Some (Throw e))
    | Some (Return parts) =>
      LibPkg.load os dir documents (<[key := parts]> schlibs)
        (stdout ++ [path])
    end.
Proof.
  unfold opened, stored_as. simpl. unfold option_of.
  destruct (doc !! U "documentpath") as [[documentpath|e]|];
    [| discriminate ..].
  destruct (LibPkg.is_schlib os _); [| discriminate].
  intros [= <-] [= <-]. reflexivity.
Qed.

Lemma load_not_opened doc documents schlibs stdout (documentpath : list N) :
  doc !! U "documentpath" = Some (Return documentpath) ->
  opened os dir doc = None ->
  LibPkg.load os dir (doc :: documents) schlibs stdout =
    LibPkg.load os dir documents schlibs stdout.
Proof.
  unfold opened. simpl. unfold option_of.
  intros ->.
  destruct (LibPkg.is_schlib os _); [discriminate | reflexivity].
Qed.

(** A document whose [documentpath] cannot be looked up ends the loop. *)
Lemma load_lookup_raises doc documents schlibs stdout (e : failure) :
  option_of doc (U "documentpath") = Throw e ->
  LibPkg.load os dir (doc :: documents) schlibs stdout
    = (stdout, Some (Throw e)).
Proof. simpl. intros ->. reflexivity. Qed.

Lemma opened_stored_as doc :
  is_Some (opened os dir doc) <-> is_Some (stored_as os dir doc).
Proof.
  unfold opened, stored_as.
  destruct (doc !! U "documentpath") as [[documentpath|e]|];
    [| split; intros [? [=]] ..].
  destruct (LibPkg.is_schlib os _); split; intros [? [=]]; eauto.
Qed.

(** The loop when it ends without an exception. *)
Lemma load_Return documents :
  forall schlibs stdout stdout' schlibs',
  LibPkg.load os dir documents schlibs stdout
    = (stdout', Some (Return schlibs')) ->
  stdout' = stdout ++ omap (opened os dir) documents /\
  Forall (fun doc =>
            (exists documentpath,
               doc !! U "documentpath" = Some (Return documentpath)) /\
            forall path, opened os dir doc = Some path ->
              exists parts, SchLib_of os path = Some (Return parts))
         documents /\
  (forall key,
     (forall doc, doc ∈ documents -> stored_as os dir doc <> Some key) ->
     schlibs' !! key = schlibs !! key) /\
  (forall pre doc post path key,
     documents = pre ++ doc :: post ->
     opened os dir doc = Some path -> stored_as os dir doc = Some key ->
     (forall doc', doc' ∈ post -> stored_as os dir doc' <> Some key) ->
     exists parts,
       SchLib_of os path = Some (Return parts) /\
       schlibs' !! key = Some parts).
Proof.
  induction documents as [|doc documents IH];
    intros schlibs stdout stdout' schlibs' Hload.
  - simpl in Hload. injection Hload as <- <-.
    split; [symmetry; apply app_nil_r |]. split; [constructor |].
    split; [reflexivity |].
    intros [|? ?] ? ? ? ? [=].
  - destruct (doc !! U "documentpath") as [[documentpath|e]|] eqn:Hdoc;
      [| simpl in Hload; unfold option_of in Hload; rewrite Hdoc in Hload;
         discriminate ..].
    destruct (opened os dir doc) as [path|] eqn:Hopened.
    + destruct (proj1 (opened_stored_as doc)) as [key Hkey]; [eauto |].
      rewrite (load_opened _ _ _ _ path key Hopened Hkey) in Hload.
      destruct (SchLib_of os path) as [[parts|e]|] eqn:Hlib;
        [| discriminate ..].
      destruct (IH _ _ _ _ Hload) as (Hout & Hall & Hother & Hlast).
      split; [| split; [| split]].
      * simpl. rewrite Hopened. rewrite Hout, <- app_assoc. reflexivity.
      * constructor; [| exact Hall]. split; [eauto |].
        intros path' Hop. rewrite Hopened in Hop. injection Hop as <-.
        eauto.
      * intros key' Hnone. rewrite Hother.
        -- apply lookup_insert_ne. intros ->.
           apply (Hnone doc); [left | exact Hkey].
        -- intros doc' Hin. apply Hnone. right. exact Hin.
      * intros [|doc0 pre] doc' post path' key' Heq Hop Hst Hpost.
        -- injection Heq as <- <-. rewrite Hopened in Hop.
           injection Hop as <-. rewrite Hkey in Hst. injection Hst as <-.
           exists parts. split; [exact Hlib |].
           rewrite (Hother key Hpost). apply lookup_insert_eq.
        -- injection Heq as <- ->.
           apply (Hlast pre doc' post path' key' eq_refl Hop Hst Hpost).
    + rewrite (load_not_opened _ _ _ _ documentpath Hdoc Hopened) in Hload.
      destruct (IH _ _ _ _ Hload) as (Hout & Hall & Hother & Hlast).
      assert (Hstored : stored_as os dir doc = None).
      { destruct (stored_as os dir doc) eqn:Hs; [| reflexivity].
        destruct (proj2 (opened_stored_as doc)) as [? Hop]; [eauto |].
        congruence. }
      split; [| split; [| split]].
      * simpl. rewrite Hopened. exact Hout.
      * constructor; [| exact Hall]. split; [eauto |].
        intros path' Hop. congruence.
      * intros key' Hnone. apply Hother.
        intros doc' Hin. apply Hnone. right. exact Hin.
      * intros [|doc0 pre] doc' post path' key' Heq Hop Hst Hpost.
        -- injection Heq as <- <-. congruence.
        -- injection Heq as <- ->.
           apply (Hlast pre doc' post path' key' eq_refl Hop Hst Hpost).
Qed.

End Package.

Lemma init_Return_inv (os : Runtime.t) (file : list N)
    (stdout stdout' : list (list N)) (pkg : LibPkg.t) :
  LibPkg.init os file stdout = (stdout', Some (Return pkg)) ->
  exists config,
    Runtime.read_config os file = Return config /\
    section config (U "Design") = Return (LibPkg.design pkg) /\
    LibPkg.design pkg !! U "version" = Some (Return (U "1.0")) /\
    LibPkg.dir pkg = Runtime.dirname os file /\
    LibPkg.name pkg = Runtime.basename os file /\
    LibPkg.documents pkg = LibPkg.documents_of config /\
    LibPkg.load os (LibPkg.dir pkg) (LibPkg.documents pkg) ∅ stdout
      = (stdout', Some (Return (LibPkg.schlibs pkg))).
Proof.
  unfold LibPkg.init.
  destruct (Runtime.read_config os file) as [config|]; [| discriminate].
  destruct (section config (U "Design")) as [design|] eqn:Hdesign;
    [| discriminate].
  unfold option_of.
  destruct (design !! U "version") as [[version|e]|] eqn:Hversion;
    [| discriminate ..].
  destruct (decide (version = U "1.0")) as [->|Hne].
  - rewrite bool_decide_eq_false_2 by tauto.
    destruct (LibPkg.load os _ _ ∅ stdout) as [out [[schlibs|]|]] eqn:Hload;
      [| discriminate ..].
    intros [= <- <-]. simpl. exists config.
    split; [reflexivity |]. split; [exact Hdesign |].
    split; [exact Hversion |]. split; [reflexivity |].
    split; [reflexivity |]. split; [reflexivity |]. exact Hload.
  - rewrite bool_decide_eq_true_2 by exact Hne. discriminate.
Qed.



(** X14: the libraries of a package are keyed by the base name of their
    [documentpath]: a key that no opened document has holds nothing, and
    a key holds the library of the last opened document with that base
    name, so that an earlier library with the same file name in another
    directory is replaced. *)
Theorem package_libraries_keyed_by_basename (os : Runtime.t)
    (file : list N) (stdout stdout' : list (list N)) (pkg : LibPkg.t)
    (key : list N) :
  LibPkg.init os file stdout = (stdout', Some (Return pkg)) ->
  ((forall doc, doc ∈ LibPkg.documents pkg ->
      stored_as os (LibPkg.dir pkg) doc <> Some key) ->
   LibPkg.schlibs pkg !! key = None)
  /\ (forall pre doc post path,
        LibPkg.documents pkg = pre ++ doc :: post ->
        opened os (LibPkg.dir pkg) doc = Some path ->
        stored_as os (LibPkg.dir pkg) doc = Some key ->
        (forall doc', doc' ∈ post ->
           stored_as os (LibPkg.dir pkg) doc' <> Some key) ->
        exists parts,
          SchLib_of os path = Some (Return parts) /\
          LibPkg.schlibs pkg !! key = Some parts).
Proof.
  intros Hinit.
  destruct (init_Return_inv _ _ _ _ _ Hinit)
    as (config & _ & _ & _ & _ & _ & _ & Hload).
  destruct (load_Return _ _ _ _ _ _ _ Hload) as (_ & _ & Hother & Hlast).
  split.
  - intros Hnone. rewrite (Hother key Hnone). apply lookup_empty.
  - intros pre doc post path Hdocs Hopened Hstored Hpost.
    apply (Hlast pre doc post path key Hdocs Hopened Hstored Hpost).
Qed.

Lemma package_libraries_keyed_by_basename_witness :
  exists pkg,
    LibPkg.init (machine "1.0" "old/parts.SchLib") (U "lib/pkg.LibPkg") []
      = ([U "lib/parts.SchLib"; U "lib/old/parts.SchLib"],
         Some (Return pkg)) /\
    size (LibPkg.schlibs pkg) = 1%nat /\
    LibPkg.schlibs pkg !! U "readme.txt" = None.
Proof.
  eexists. split; [vm_compute; reflexivity |].
  split; [vm_compute; reflexivity |].
  match goal with
  | |- LibPkg.schlibs ?pkg !! _ = None =>
    apply (proj1 (package_libraries_keyed_by_basename
                    (machine "1.0" "old/parts.SchLib") (U "lib/pkg.LibPkg")
                    [] [U "lib/parts.SchLib"; U "lib/old/parts.SchLib"]
                    pkg (U "readme.txt")
                    ltac:(vm_compute; reflexivity)))
  end.
  intros doc Hin Hstored.
  repeat (apply elem_of_cons in Hin as [-> | Hin];
          [vm_compute in Hstored; discriminate |]).
  inversion Hin.
Defined.



(** X16: a document whose [documentpath] is looked up without an
    exception and has another extension than [.schlib] is never opened:
    taking it out of the manifest changes neither the libraries loaded
    nor the lines printed nor the exception raised. *)
Theorem unopened_document_is_ignored (os : Runtime.t) (dir : list N)
    (pre post : list (gmap (list N) (outcome (list N))))
    (doc : gmap (list N) (outcome (list N)))
    (schlibs : gmap (list N) (gmap (list N) SchPart.t))
    (stdout : list (list N)) (documentpath : list N) :
  option_of doc (U "documentpath") = Return documentpath ->
  LibPkg.is_schlib os (Runtime.join os dir documentpath) = false ->
  LibPkg.load os dir (pre ++ doc :: post) schlibs stdout
    = LibPkg.load os dir (pre ++ post) schlibs stdout.
Proof.
  intros Hdoc Hext. rewrite !load_app.
  destruct (LibPkg.load os dir pre schlibs stdout) as [out [[s|]|]];
    [| reflexivity ..].
  simpl. rewrite Hdoc, Hext. reflexivity.
Qed.

Lemma unopened_document_is_ignored_witness :
  LibPkg.load (machine "1.0" "x") (U "lib")
    ([ {[ U "documentpath" := Return (U "parts.SchLib") ]} ]
       ++ {[ U "documentpath" := Return (U "notes/readme.txt") ]} :: []) ∅ []
  = LibPkg.load (machine "1.0" "x") (U "lib")
      ([ {[ U "documentpath" := Return (U "parts.SchLib") ]} ] ++ []) ∅ [].
Proof.
  apply (unopened_document_is_ignored _ _ _ _ _ _ _ (U "notes/readme.txt")).
  - vm_compute. reflexivity.
  - vm_compute. reflexivity.
Defined.

(** * Properties of the export *)

Lemma cell_params (part : SchPart.t) (key : list N) :
  default [] (SchPart.params part !! key) = cell part key.
Proof.
  unfold cell.
  destruct (SchPart.properties part !! key) as [v|] eqn:Hkey.
  - rewrite (params_lookup_property _ _ _ Hkey). reflexivity.
  - rewrite (params_lookup_fixed _ _ Hkey).
    repeat case_decide; reflexivity.
Qed.

Lemma dict_to_list_params (part : SchPart.t) (fieldnames : list (list N)) :
  dict_to_list fieldnames (RowDict (SchPart.params part))
    = Return (cell part <$> fieldnames).
Proof.
  simpl. f_equal. apply list_fmap_ext. intros i key _. apply cell_params.
Qed.

(** X17: the row exported for a Part has one cell for each requested
    field name, in their order: the property of that name when the Part
    has one, else the id, the designator or the description under these
    three names, else the empty string; a property that is not
    requested is left out. *)
Theorem export_row_cells (part : SchPart.t) (fieldnames : list (list N)) :
  dict_to_list fieldnames (RowDict (SchPart.params part))
    = Return (cell part <$> fieldnames).
Proof. apply dict_to_list_params. Qed.

(** ** Rows that cannot be encoded *)

Section Writing.

Context (os : Runtime.t).

Implicit Types (rows written : list (list (list N)))
  (fieldnames : list (list N)).

Lemma encodable_prefix_app rows rows' :
  encodable_prefix os (rows ++ rows') =
    if forallb (encodable os) rows
    then rows ++ encodable_prefix os rows'
    else encodable_prefix os rows.
Proof.
  induction rows as [|row rows IH]; [reflexivity |].
  simpl. destruct (encodable os row); [| reflexivity].
  simpl. rewrite IH. destruct (forallb (encodable os) rows); reflexivity.
Qed.

Lemma encodable_prefix_all rows :
  forallb (encodable os) rows = true -> encodable_prefix os rows = rows.
Proof.
  induction rows as [|row rows IH]; [reflexivity |].
  simpl. destruct (encodable os row); [| discriminate].
  simpl. intros Hrows. rewrite IH by exact Hrows. reflexivity.
Qed.

Lemma encodable_prefix_elem rows (row : list (list N)) :
  row ∈ encodable_prefix os rows -> row ∈ rows /\ encodable os row = true.
Proof.
  induction rows as [|row' rows IH]; simpl; [intros Hin; inversion Hin |].
  destruct (encodable os row') eqn:Hrow; [| intros Hin; inversion Hin].
  intros [-> | Hin]%elem_of_cons.
  - split; [left | exact Hrow].
  - destruct (IH Hin) as [Hin' Henc]. split; [right; exact Hin' | exact Henc].
Qed.

Lemma encodable_prefix_short rows :
  forallb (encodable os) rows = false ->
  (length (encodable_prefix os rows) < length rows)%nat.
Proof.
  induction rows as [|row rows IH]; simpl; [discriminate |].
  destruct (encodable os row); simpl; [| lia].
  intros Hrows. specialize (IH Hrows). lia.
Qed.

Lemma writerows_dicts fieldnames (schlib : gmap (list N) SchPart.t) written :
  writerows os fieldnames (rows_of schlib) written =
    let cells := (fun kp => cell kp.2 <$> fieldnames) <$> map_to_list schlib in
    (written ++ encodable_prefix os cells, written_all os cells).
Proof.
  unfold rows_of, written_all. revert written.
  induction (map_to_list schlib) as [|kp l IH]; intros written.
  - simpl. rewrite app_nil_r. reflexivity.
  - cbn [fmap list_fmap writerows]. rewrite dict_to_list_params.
    unfold writerow. cbn [encodable_prefix forallb].
    destruct (encodable os (cell kp.2 <$> fieldnames)).
    + rewrite IH. cbn zeta. rewrite <- app_assoc. reflexivity.
    + rewrite app_nil_r. reflexivity.
Qed.

Lemma write_libraries_rows fieldnames
    (libraries : list (gmap (list N) SchPart.t)) written :
  write_libraries os fieldnames libraries written =
    let cells :=
      schlib ← libraries;
      (fun kp => cell kp.2 <$> fieldnames) <$> map_to_list schlib in
    (written ++ encodable_prefix os cells, written_all os cells).
Proof.
  unfold written_all. revert written.
  induction libraries as [|schlib libraries IH]; intros written.
  - simpl. rewrite app_nil_r. reflexivity.
  - cbn [write_libraries]. rewrite writerows_dicts. cbn zeta.
    cbn [mbind list_bind]. rewrite encodable_prefix_app, forallb_app.
    unfold written_all.
    set (first := _ <$> map_to_list schlib).
    destruct (forallb (encodable os) first) eqn:Hfirst; [| reflexivity].
    rewrite (encodable_prefix_all first Hfirst), IH. cbn zeta.
    rewrite <- app_assoc. reflexivity.
Qed.

Lemma LibPkg_parts_to_csv_rows (self : LibPkg.t) (file : list N) fieldnames :
  Runtime.open_w os file = Return tt ->
  LibPkg_parts_to_csv os self file fieldnames =
    (encodable_prefix os (fieldnames :: export_data self fieldnames),
     written_all os (fieldnames :: export_data self fieldnames)).
Proof.
  intros Hopen. unfold LibPkg_parts_to_csv, writeheader, writerow.
  rewrite Hopen. unfold written_all. cbn [encodable_prefix forallb app].
  destruct (encodable os fieldnames); [| reflexivity].
  rewrite write_libraries_rows. reflexivity.
Qed.

Lemma LibPkg_parts_to_csv_Return (self : LibPkg.t) (file : list N) fieldnames
    rows :
  LibPkg_parts_to_csv os self file fieldnames = (rows, Return tt) ->
  rows = fieldnames :: export_data self fieldnames.
Proof.
  destruct (Runtime.open_w os file) as [[]|e] eqn:Hopen;
    [| unfold LibPkg_parts_to_csv; rewrite Hopen; discriminate].
  rewrite (LibPkg_parts_to_csv_rows _ _ _ Hopen). unfold written_all.
  destruct (forallb _ _) eqn:Hall; [| discriminate].
  rewrite (encodable_prefix_all _ Hall). intros [= <-]. reflexivity.
Qed.

Lemma writerows_keys (keys : list (list N)) written :
  writerows os [] (RowStr <$> keys) written
    = (written ++ replicate (length keys) [], Return tt).
Proof.
  revert written. induction keys as [|key keys IH]; intros written.
  - simpl. rewrite app_nil_r. reflexivity.
  - cbn [fmap list_fmap writerows dict_to_list]. unfold writerow.
    cbn [encodable forallb]. rewrite IH, <- app_assoc. reflexivity.
Qed.

End Writing.

Lemma export_data_length (self : LibPkg.t) (fieldnames : list (list N)) :
  length (export_data self fieldnames)
    = sum_list (size <$> (map_to_list (LibPkg.schlibs self)).*2).
Proof.
  unfold export_data.
  induction ((map_to_list (LibPkg.schlibs self)).*2) as [|schlib l IH];
    [reflexivity |].
  cbn [mbind list_bind fmap list_fmap sum_list sum_list_with].
  rewrite length_app, length_fmap, IH, length_map_to_list. reflexivity.
Qed.

Lemma export_data_elem (self : LibPkg.t) (fieldnames : list (list N))
    (row : list (list N)) :
  row ∈ export_data self fieldnames <->
  exists key schlib name part,
    LibPkg.schlibs self !! key = Some schlib /\
    schlib !! name = Some part /\
    row = cell part <$> fieldnames.
Proof.
  unfold export_data. rewrite list_elem_of_bind. split.
  - intros (schlib & Hrow & Hlib).
    apply list_elem_of_fmap in Hlib as ([key schlib'] & -> & Hlib).
    apply elem_of_map_to_list in Hlib.
    apply list_elem_of_fmap in Hrow as ([name part] & -> & Hpart).
    apply elem_of_map_to_list in Hpart.
    exists key, schlib', name, part. auto.
  - intros (key & schlib & name & part & Hlib & Hpart & ->).
    exists schlib. split.
    + apply list_elem_of_fmap. exists (name, part).
      split; [reflexivity |]. apply elem_of_map_to_list, Hpart.
    + apply list_elem_of_fmap. exists (key, schlib).
      split; [reflexivity |]. apply elem_of_map_to_list, Hlib.
Qed.

(** X18: once the file is open, the export of a package writes the
    field names as a header row and then one row for each Part of each
    library of the package, the row of X17, and returns, when the
    encoding of the file encodes every character of these rows; when it
    does not, the export raises [UnicodeEncodeError] with the file left
    short: all that the file has are rows among these, fewer than all
    of them, each of which the encoding encodes. *)
Theorem package_export_rows (os : Runtime.t) (self : LibPkg.t)
    (file : list N) (fieldnames : list (list N)) :
  Runtime.open_w os file = Return tt ->
  let data := export_data self fieldnames in
  length data = sum_list (size <$> (map_to_list (LibPkg.schlibs self)).*2) /\
  (forall row,
     row ∈ data <->
     exists key schlib name part,
       LibPkg.schlibs self !! key = Some schlib /\
       schlib !! name = Some part /\
       row = cell part <$> fieldnames) /\
  (forallb (encodable os) (fieldnames :: data) = true ->
   LibPkg_parts_to_csv os self file fieldnames
     = (fieldnames :: data, Return tt)) /\
  (forallb (encodable os) (fieldnames :: data) = false ->
   exists written,
     LibPkg_parts_to_csv os self file fieldnames
       = (written, Throw UnicodeEncodeError) /\
     (length written <= length data)%nat /\
     forall row,
       row ∈ written -> row ∈ fieldnames :: data /\ encodable os row = true).
Proof.
  intros Hopen data.
  split; [apply export_data_length |].
  split; [apply export_data_elem |].
  rewrite (LibPkg_parts_to_csv_rows _ _ _ _ Hopen). fold data.
  unfold written_all. split; intros Hall; rewrite Hall.
  - rewrite (encodable_prefix_all _ _ Hall). reflexivity.
  - eexists. split; [reflexivity |]. split.
    + pose proof (encodable_prefix_short _ _ Hall) as Hshort.
      cbn [length] in Hshort |- *. lia.
    + apply encodable_prefix_elem.
Qed.

Lemma package_export_rows_witness :
  LibPkg_parts_to_csv (machine "1.0" "x") (package_of resistor_omega)
    (U "pkg.csv") [U "id"; U "description"]
    = ([[U "id"; U "description"]; [U "RES"; [937]]], Return tt)
  /\ exists written,
       LibPkg_parts_to_csv (machine_with ascii_encodes "1.0" "x")
         (package_of resistor_omega) (U "pkg.csv") [U "id"; U "description"]
         = (written, Throw UnicodeEncodeError) /\
       (length written <= 1)%nat.
Proof.
  split.
  - apply (package_export_rows (machine "1.0" "x") (package_of resistor_omega)
             (U "pkg.csv") [U "id"; U "description"] eq_refl).
    vm_compute; reflexivity.
  - destruct (package_export_rows (machine_with ascii_encodes "1.0" "x")
                (package_of resistor_omega) (U "pkg.csv")
                [U "id"; U "description"] eq_refl)
      as (_ & _ & _ & Hfails).
    destruct Hfails as (written & Hwritten & Hlength & _);
      [vm_compute; reflexivity |].
    exists written. split; [exact Hwritten |].
    vm_compute in Hlength. exact Hlength.
Defined.

(** X19: [SchPart.parts_to_csv] writes no value of the Part: it hands
    the dict of [params()] itself to [writerows], which takes each key,
    a string, for a row.  Once the file is open, with at least one field
    name the header is written, unless it cannot be encoded, and the
    first key raises [AttributeError]; with no field name the header is
    an empty row, each key gives another empty row, and the call
    returns. *)
Theorem part_export_writes_no_value (os : Runtime.t) (self : SchPart.t)
    (file : list N) (fieldnames : list (list N)) :
  Runtime.open_w os file = Return tt ->
  SchPart_parts_to_csv os self file fieldnames =
    match fieldnames with
    | [] => ([] :: replicate (size (SchPart.params self)) [], Return tt)
    | _ :: _ =>
      if encodable os fieldnames
      then ([fieldnames], Throw (Uncaught AttributeError))
      else ([], Throw UnicodeEncodeError)
    end.
Proof.
  intros Hopen. unfold SchPart_parts_to_csv, writeheader, writerow.
  rewrite Hopen. destruct fieldnames as [|field fieldnames].
  - cbn [encodable forallb app]. rewrite writerows_keys.
    rewrite length_fmap, length_map_to_list. reflexivity.
  - destruct (encodable os (field :: fieldnames)); [| reflexivity].
    destruct (map_to_list (SchPart.params self)) as [|[key v] l] eqn:Hlist;
      [| reflexivity].
    apply map_to_list_empty_iff in Hlist.
    assert (Hid : is_Some (SchPart.params self !! U "id")).
    { destruct (SchPart.properties self !! U "id") as [v|] eqn:Hprop.
      - rewrite (params_lookup_property _ _ _ Hprop). eauto.
      - rewrite (params_lookup_fixed _ _ Hprop). simpl. eauto. }
    rewrite Hlist, lookup_empty in Hid. destruct Hid as [? [=]].
Qed.

Lemma part_export_writes_no_value_witness :
  SchPart_parts_to_csv (machine "1.0" "x") resistor_omega (U "part.csv")
    [U "id"; U "description"]
    = ([[U "id"; U "description"]], Throw (Uncaught AttributeError))
  /\ SchPart_parts_to_csv (machine "1.0" "x") resistor_omega (U "part.csv") []
     = ([[]; []; []; []], Return tt).
Proof.
  split.
  - apply (part_export_writes_no_value (machine "1.0" "x") resistor_omega
             (U "part.csv") [U "id"; U "description"] eq_refl).
  - rewrite (part_export_writes_no_value (machine "1.0" "x") resistor_omega
               (U "part.csv") [] eq_refl).
    vm_compute; reflexivity.
Defined.

(** X20: the command line writes a CSV file only for an argument whose
    extension is [.libpkg] (in any case), and only once the package was
    built: the file is [--output], or the base name of the argument
    followed by [.csv]; its header row is [id], [designator],
    [description], [Comment] and the requested fields; its other rows
    are those of the package.  For a [.schlib] argument nothing is
    written. *)
Theorem main_writes_package_export (os : Runtime.t) (file : list N)
    (fields : list (list N)) (output : option (list N))
    (stdout stdout' : list (list N)) (path : list N)
    (rows : list (list (list N))) :
  main os file fields output stdout
    = (stdout', Some (Return (Some (path, rows)))) ->
  Runtime.lower os (Runtime.splitext os file).2 = U ".libpkg" /\
  path = default (Runtime.basename os file ++ U ".csv") output /\
  exists libpkg data,
    LibPkg.init os file stdout = (stdout', Some (Return libpkg)) /\
    LibPkg_parts_to_csv os libpkg path
      ([U "id"; U "designator"; U "description"; U "Comment"] ++ fields)
      = (rows, Return tt) /\
    rows
      = ([U "id"; U "designator"; U "description"; U "Comment"] ++ fields)
          :: data.
Proof.
  unfold main. case_bool_decide as Hext.
  - destruct (LibPkg.init os file stdout) as [out [[libpkg|e]|]] eqn:Hinit;
      [| discriminate ..].
    destruct (LibPkg_parts_to_csv os libpkg _ _) as [written [[]|e]] eqn:Hcsv;
      [| discriminate].
    intros [= <- <- <-].
    split; [exact Hext |]. split; [destruct output; reflexivity |].
    exists libpkg, (export_data libpkg
      ([U "id"; U "designator"; U "description"; U "Comment"] ++ fields)).
    split; [reflexivity |].
    split; [destruct output; exact Hcsv |].
    apply (LibPkg_parts_to_csv_Return _ _ _ _ _ Hcsv).
  - case_bool_decide; [| discriminate].
    destruct (SchLib_of os file) as [[sch|e]|]; discriminate.
Qed.

Lemma main_writes_package_export_witness :
  exists rows,
    main (machine "1.0" "old/parts.SchLib") (U "lib/pkg.LibPkg")
      [U "Footprint"] None []
    = ([U "lib/parts.SchLib"; U "lib/old/parts.SchLib"],
       Some (Return (Some (U "pkg.LibPkg.csv", rows)))) /\
    rows !! 0%nat
      = Some [U "id"; U "designator"; U "description"; U "Comment";
              U "Footprint"] /\
    rows !! 1%nat = Some [U "RES"; U "R?"; U "second"; U "20k"; []].
Proof.
  eexists. split; [vm_compute; reflexivity |].
  split; [| vm_compute; reflexivity].
  edestruct (main_writes_package_export (machine "1.0" "old/parts.SchLib")
               (U "lib/pkg.LibPkg") [U "Footprint"] None [])
    as (_ & _ & libpkg & data & _ & _ & Hrows);
    [vm_compute; reflexivity |].
  rewrite Hrows. reflexivity.
Defined.
